(** * MindChat service worker (src/public/sw.js): a shallow embedding

    The worker is modelled as state passing with exceptions: a computation
    takes the worker-visible world (Cache Storage, the IndexedDB stores, the
    network, the notification tray) and returns a result or a thrown error,
    together with the new world.  URLs are written origin-relative (path and
    query), so a request's fingerprint is its [req_url] and the worker's own
    origin is left out. *)

From Stdlib Require Import ZArith String List Bool Sorted.
From stdpp Require Import base gmap strings list.
Import ListNotations.
Open Scope string_scope.

(* ------------------------------------------------------------------ *)
(** ** JavaScript string helpers *)

(** [String.prototype.startsWith]. *)
Definition startsWith (s p : string) : bool := String.prefix p s.

(** [String.prototype.endsWith]: the last [length p] characters equal [p]. *)
Definition endsWith (s p : string) : bool :=
  let n := String.length s in
  let m := String.length p in
  (Nat.leb m n && String.eqb (substring (n - m) m s) p)%bool.

(** [String.prototype.includes]. *)
Fixpoint includes (s p : string) : bool :=
  (String.prefix p s ||
   match s with
   | EmptyString => false
   | String _ s' => includes s' p
   end)%bool.

(* ------------------------------------------------------------------ *)
(** ** Constants (sw.js lines 4-33) *)

Definition CACHE_NAME := "mindchat-v1.0.0".
Definition STATIC_CACHE := "mindchat-static-v1".
Definition DYNAMIC_CACHE := "mindchat-dynamic-v1".
Definition AUDIO_CACHE := "mindchat-audio-v1".

Definition STATIC_ASSETS : list string :=
  ["/"; "/index.html"; "/manifest.json";
   "/icons/icon-192x192.png"; "/icons/icon-512x512.png"].

(* ------------------------------------------------------------------ *)
(** ** Data model *)

(** A [Response] object; header names are kept lower-case, as the
    [Headers] class normalises them. *)
Record response := mkResponse {
  status : Z;
  resp_headers : list (string * string);
  resp_body : string
}.

(** [response.ok]: status in 200..299. *)
Definition ok (r : response) : bool :=
  (Z.leb 200 (status r) && Z.leb (status r) 299)%bool.

(** A [Request] object.  Header names are kept lower-case, as the
    [Headers] class normalises them.  [body_used] is the object's
    [bodyUsed] flag: [fetch(request)] takes the body stream of a request
    that has one, after which [request.text()] rejects. *)
Record request := mkRequest {
  method : string;
  req_url : string;
  req_path : string;          (* new URL(request.url).pathname *)
  req_headers : list (string * string);
  req_body : option string;
  body_used : bool
}.

(** A record of the [pending_requests] object store (lines 255-261), with
    the key [id] that the store's autoIncrement key generator assigns. *)
Record pending_request := mkPending {
  id : nat;
  p_url : string;
  p_method : string;
  p_headers : list (string * string);
  p_body : string;
  p_timestamp : Z
}.

(** A record of the [mood_data] store as [checkCrisisSupport] reads it:
    [mood_time] is [new Date(mood.date)] as milliseconds since the epoch
    (a date-only string such as "2026-10-14" denotes UTC midnight). *)
Record mood := mkMood { mood_time : Z; mood_value : Z }.

Record notification := mkNotification {
  n_title : string;
  n_tag : string;
  n_requireInteraction : bool
}.

(** A piece of work left running after a handler has returned: the
    [.then] continuation of a background fetch, which puts the response
    into a partition when it runs. *)
Inductive job :=
| JPut (cacheName : string) (url : string) (r : response).

Record world := mkWorld {
  caches : gmap string (gmap string response);  (* Cache Storage *)
  pending_requests : list pending_request;       (* in key order *)
  next_key : nat;                                (* key generator *)
  mood_data : list mood;
  now : Z;                                       (* Date.now() *)
  network : list (option response);  (* outcomes of the next fetches;
                                        None = the fetch rejects *)
  fetch_log : list string;           (* URLs of the fetches issued *)
  jobs : list job;                   (* continuations not yet run *)
  shown : list notification;
  sync_registered : list string;     (* tags of the sync registrations *)
  skipped_waiting : bool;
  quota_exceeded : bool;             (* the origin's storage quota is used up:
                                        a write to Cache Storage fails *)
  sync_manager : bool                (* [registration.sync] exists (the
                                        browser supports Background Sync) *)
}.

Inductive exn :=
| NetworkError                 (* TypeError: Failed to fetch *)
| TypeError (msg : string)
| QuotaExceededError           (* DOMException: the storage quota is used up *)
| Error (msg : string).

Inductive result (A : Type) :=
| Ok (a : A)
| Err (e : exn).
Arguments Ok {A} a.
Arguments Err {A} e.

Definition M (A : Type) := world -> result A * world.

Definition ret {A} (a : A) : M A := fun w => (Ok a, w).
Definition throw {A} (e : exn) : M A := fun w => (Err e, w).
Definition bind {A B} (m : M A) (k : A -> M B) : M B :=
  fun w => match m w with
           | (Ok a, w') => k a w'
           | (Err e, w') => (Err e, w')
           end.
(** [try { m } catch (e) { h(e) }]. *)
Definition try_catch {A} (m : M A) (h : exn -> M A) : M A :=
  fun w => match m w with
           | (Ok a, w') => (Ok a, w')
           | (Err e, w') => h e w'
           end.

Notation "'let*' x ':=' m 'in' k" := (bind m (fun x => k))
  (at level 200, x name, m at level 100, right associativity).
Notation "m ;; k" := (bind m (fun _ => k)) (at level 100, right associativity).

(* ------------------------------------------------------------------ *)
(** ** World updates *)

Definition set_caches c w :=
  mkWorld c (pending_requests w) (next_key w) (mood_data w) (now w)
    (network w) (fetch_log w) (jobs w) (shown w) (sync_registered w)
    (skipped_waiting w) (quota_exceeded w) (sync_manager w).
Definition set_outbox o k w :=
  mkWorld (caches w) o k (mood_data w) (now w)
    (network w) (fetch_log w) (jobs w) (shown w) (sync_registered w)
    (skipped_waiting w) (quota_exceeded w) (sync_manager w).
Definition set_network n l w :=
  mkWorld (caches w) (pending_requests w) (next_key w) (mood_data w) (now w)
    n l (jobs w) (shown w) (sync_registered w) (skipped_waiting w)
    (quota_exceeded w) (sync_manager w).
Definition set_jobs j w :=
  mkWorld (caches w) (pending_requests w) (next_key w) (mood_data w) (now w)
    (network w) (fetch_log w) j (shown w) (sync_registered w)
    (skipped_waiting w) (quota_exceeded w) (sync_manager w).
Definition set_shown n w :=
  mkWorld (caches w) (pending_requests w) (next_key w) (mood_data w) (now w)
    (network w) (fetch_log w) (jobs w) n (sync_registered w)
    (skipped_waiting w) (quota_exceeded w) (sync_manager w).
Definition set_sync t w :=
  mkWorld (caches w) (pending_requests w) (next_key w) (mood_data w) (now w)
    (network w) (fetch_log w) (jobs w) (shown w) t (skipped_waiting w)
    (quota_exceeded w) (sync_manager w).
Definition set_skipped b w :=
  mkWorld (caches w) (pending_requests w) (next_key w) (mood_data w) (now w)
    (network w) (fetch_log w) (jobs w) (shown w) (sync_registered w) b
    (quota_exceeded w) (sync_manager w).

Definition modify (f : world -> world) : M unit := fun w => (Ok tt, f w).
Definition gets {A} (f : world -> A) : M A := fun w => (Ok (f w), w).

(* ------------------------------------------------------------------ *)
(** ** Platform operations *)

(** [fetch(url)]: one network round trip; its outcome is the next entry
    of [network] (an exhausted network is offline). *)
Definition fetch (url : string) : M response :=
  fun w =>
    let log := (fetch_log w ++ [url])%list in
    match network w with
    | Some r :: rest => (Ok r, set_network rest log w)
    | None :: rest => (Err NetworkError, set_network rest log w)
    | [] => (Err NetworkError, set_network [] log w)
    end.

(** [caches.open(name)]: creates the partition when it does not exist. *)
Definition caches_open (name : string) : M unit :=
  modify (fun w => match caches w !! name with
                   | Some _ => w
                   | None => set_caches (<[name := ∅]> (caches w)) w
                   end).

(** [cache.match(request)] on an opened partition. *)
Definition cache_match (name url : string) : M (option response) :=
  gets (fun w => match caches w !! name with
                 | Some p => p !! url
                 | None => None
                 end).

(** The field values of a response's [Vary] header: the values of every
    [vary] entry joined by ", " (as [Headers.get] does), then split at the
    commas outside double-quoted strings and stripped of surrounding spaces
    and tabs (the Fetch standard's "get, decode, and split"). *)
Definition header_values (h : list (string * string)) (name : string) : list string :=
  map snd (List.filter (fun kv => String.eqb (fst kv) name) h).

Definition comma := Ascii.ascii_of_nat 44.
Definition dquote := Ascii.ascii_of_nat 34.
Definition backslash := Ascii.ascii_of_nat 92.

Definition http_ws (c : Ascii.ascii) : bool :=
  (Ascii.eqb c (Ascii.ascii_of_nat 32) || Ascii.eqb c (Ascii.ascii_of_nat 9))%bool.

Fixpoint drop_ws (l : list Ascii.ascii) : list Ascii.ascii :=
  match l with
  | c :: l' => if http_ws c then drop_ws l' else l
  | [] => []
  end.

(** A value collected in reverse, with its surrounding whitespace removed. *)
Definition finish_value (acc : list Ascii.ascii) : string :=
  string_of_list_ascii (drop_ws (rev (drop_ws acc))).

(** Where the splitter is: outside quotes, inside a quoted string, or just
    after a backslash inside one. *)
Inductive split_state := Plain | Quoted | Escaped.

Fixpoint split_values (st : split_state) (acc : list Ascii.ascii) (s : string)
  : list string :=
  match s with
  | EmptyString => [finish_value acc]
  | String c s' =>
      match st with
      | Plain =>
          if Ascii.eqb c comma then finish_value acc :: split_values Plain [] s'
          else if Ascii.eqb c dquote then split_values Quoted (c :: acc) s'
          else split_values Plain (c :: acc) s'
      | Quoted =>
          if Ascii.eqb c backslash then split_values Escaped (c :: acc) s'
          else if Ascii.eqb c dquote then split_values Plain (c :: acc) s'
          else split_values Quoted (c :: acc) s'
      | Escaped => split_values Quoted (c :: acc) s'
      end
  end.

Definition vary_fields (r : response) : list string :=
  match header_values (resp_headers r) "vary" with
  | [] => []
  | vs => split_values Plain [] (String.concat ", " vs)
  end.

(** One of the [Vary] field values is "*". *)
Definition vary_star (r : response) : bool :=
  existsb (String.eqb "*") (vary_fields r).

(** [cache.put(request, response)] on an opened partition.  The Cache API
    refuses a partial response (status 206) and a response with a [Vary]
    field value "*", rejecting with a TypeError, and the write fails with a
    QuotaExceededError when the storage quota is used up; in each case the
    partition is left as it was.  Otherwise the entry is overwritten. *)
Definition cache_put (name url : string) (r : response) : M unit :=
  if Z.eqb (status r) 206 then throw (TypeError "Partial response (status code 206) is unsupported")
  else if vary_star r then throw (TypeError "Vary header contains *")
  else
    let* full := gets quota_exceeded in
    if full then throw QuotaExceededError
    else modify (fun w =>
           let p := match caches w !! name with Some p => p | None => ∅ end in
           set_caches (<[name := <[url := r]> p]> (caches w)) w).

(** [caches.keys()] and [caches.delete(name)]. *)
Definition caches_keys (w : world) : list string :=
  map fst (map_to_list (caches w)).
Definition caches_delete (name : string) : M unit :=
  modify (fun w => set_caches (delete name (caches w)) w).

(** [fetch(request)]: a request whose body was already taken cannot be
    sent again. *)
Definition fetch_request (req : request) : M response :=
  match req_body req, body_used req with
  | Some _, true => throw (TypeError "Cannot construct a Request with a Request object that has already been used")
  | _, _ => fetch (req_url req)
  end.

(** The request object after [fetch(request)] has taken its body. *)
Definition consume_body (req : request) : request :=
  match req_body req with
  | Some _ => mkRequest (method req) (req_url req) (req_path req)
                (req_headers req) (req_body req) true
  | None => req
  end.

(** [request.text()]. *)
Definition request_text (req : request) : M string :=
  if body_used req then throw (TypeError "Body is unusable")
  else ret (match req_body req with Some b => b | None => "" end).

(** A continuation left running: [jobs w] gains [j]. *)
Definition spawn (j : job) : M unit :=
  modify (fun w => set_jobs (jobs w ++ [j])%list w).

(* ------------------------------------------------------------------ *)
(** ** Caching strategies (lines 147-209) *)

Definition cacheFirstStrategy (req : request) (cacheName : string)
  : M response :=
  caches_open cacheName ;;
  let* cachedResponse := cache_match cacheName (req_url req) in
  match cachedResponse with
  | Some r => ret r
  | None =>
      let* networkResponse := fetch_request req in
      cache_put cacheName (req_url req) networkResponse ;;
      ret networkResponse
  end.

Definition networkFirstStrategy (req : request) (cacheName : string)
  : M response :=
  try_catch
    (let* networkResponse := fetch_request req in
     caches_open cacheName ;;
     cache_put cacheName (req_url req) networkResponse ;;
     ret networkResponse)
    (fun error =>
       caches_open cacheName ;;
       let* cachedResponse := cache_match cacheName (req_url req) in
       match cachedResponse with
       | Some r => ret r
       | None => throw error
       end).

(** The [.then(put).catch(() => null)] continuation of the background
    fetch, run when that fetch has resolved with [r]. *)
Definition put_or_null (cacheName url : string) (r : response)
  : M (option response) :=
  try_catch (cache_put cacheName url r ;; ret (Some r)) (fun _ => ret None).

(** Stale-while-revalidate.  The fetch is issued before the cached copy is
    returned; when a copy exists the handler returns at once and the
    continuation that stores the network response is left in [jobs]; when
    none exists the handler awaits the continuation. *)
Definition staleWhileRevalidateStrategy (req : request) (cacheName : string)
  : M response :=
  caches_open cacheName ;;
  let* cachedResponse := cache_match cacheName (req_url req) in
  let* outcome := try_catch (let* r := fetch_request req in ret (Some r))
                            (fun _ => ret None) in
  match cachedResponse with
  | Some c =>
      match outcome with
      | Some r => spawn (JPut cacheName (req_url req) r)
      | None => ret tt
      end ;;
      ret c
  | None =>
      let* networkResponse :=
        match outcome with
        | Some r => put_or_null cacheName (req_url req) r
        | None => ret None
        end in
      match networkResponse with
      | Some r => ret r
      | None => throw (Error "No cached response and network unavailable")
      end
  end.

(** Running a continuation left in [jobs]. *)
Definition run_job (j : job) : M unit :=
  match j with
  | JPut n u r => put_or_null n u r ;; ret tt
  end.

(** The event loop settles every continuation left running, in order. *)
Fixpoint run_jobs (l : list job) : M unit :=
  match l with
  | [] => ret tt
  | j :: rest => run_job j ;; run_jobs rest
  end.
Definition settle : M unit :=
  let* l := gets jobs in
  modify (set_jobs []) ;;
  run_jobs l.

(* ------------------------------------------------------------------ *)
(** ** Fallback responses (lines 211-250) *)

Definition dq : string := String (Ascii.ascii_of_nat 34) EmptyString.
Definition quoted (s : string) : string := dq ++ s ++ dq.

Fixpoint header_get (h : list (string * string)) (name : string)
  : option string :=
  match h with
  | [] => None
  | (k, v) :: rest => if String.eqb k name then Some v else header_get rest name
  end.

(** [request.headers.get('Accept')?.includes(s)]: false when absent. *)
Definition accept_includes (req : request) (s : string) : bool :=
  match header_get (req_headers req) "accept" with
  | Some a => includes a s
  | None => false
  end.

Definition offline_api_body : string :=
  "{" ++ quoted "error" ++ ":" ++ quoted "Offline" ++ ","
  ++ quoted "message" ++ ":"
  ++ quoted "This feature requires internet connection" ++ ","
  ++ quoted "offline" ++ ":true}".

Definition nl : string := String (Ascii.ascii_of_nat 10) EmptyString.
Definition attr (k v : string) : string := " " ++ k ++ "=" ++ quoted v.

(** The placeholder image of lines 239-242. *)
Definition offline_svg : string :=
  "<svg" ++ attr "xmlns" "http://www.w3.org/2000/svg" ++ attr "width" "200"
  ++ attr "height" "200" ++ attr "viewBox" "0 0 200 200" ++ ">" ++ nl
  ++ "      <rect" ++ attr "width" "200" ++ attr "height" "200"
  ++ attr "fill" "#f0f0f0" ++ "/>" ++ nl
  ++ "      <text" ++ attr "x" "100" ++ attr "y" "100"
  ++ attr "text-anchor" "middle" ++ attr "fill" "#666"
  ++ attr "font-size" "14" ++ ">Offline</text>" ++ nl
  ++ "    </svg>".

Definition getFallbackResponse (req : request) : M response :=
  if accept_includes req "text/html" then
    caches_open STATIC_CACHE ;;
    let* shell := cache_match STATIC_CACHE "/" in
    match shell with
    | Some r => ret r
    | None => ret (mkResponse 503 [("content-type", "text/plain")]
                     "Offline - Please check your connection")
    end
  else if startsWith (req_path req) "/api/" then
    ret (mkResponse 503 [("content-type", "application/json")]
           offline_api_body)
  else if accept_includes req "image/" then
    ret (mkResponse 200 [("content-type", "image/svg+xml")] offline_svg)
  else ret (mkResponse 503 [("content-type", "text/plain;charset=UTF-8")]
              "Resource unavailable offline").

(* ------------------------------------------------------------------ *)
(** ** Request handlers (lines 84-145) *)

Definition handleGetRequest (req : request) : M response :=
  try_catch
    (if existsb (fun asset => endsWith (req_path req) asset) STATIC_ASSETS
     then cacheFirstStrategy req STATIC_CACHE
     else if includes (req_path req) "/audio/"
     then cacheFirstStrategy req AUDIO_CACHE
     else if startsWith (req_path req) "/api/"
     then networkFirstStrategy req DYNAMIC_CACHE
     else staleWhileRevalidateStrategy req DYNAMIC_CACHE)
    (fun _ => getFallbackResponse req).

(** [storeForBackgroundSync]: the IndexedDB database is taken to open;
    any failure inside is logged and swallowed. *)
Definition storeForBackgroundSync (req : request) : M unit :=
  try_catch
    (let* body := request_text req in
     let* t := gets now in
     let* k := gets next_key in
     modify (fun w =>
       set_outbox
         (pending_requests w ++
          [mkPending k (req_url req) (method req) (req_headers req) body t])%list
         (S k) w))
    (fun _ => ret tt).

Definition queued_body : string :=
  "{" ++ quoted "success" ++ ":true," ++ quoted "offline" ++ ":true,"
  ++ quoted "message" ++ ":" ++ quoted "Data queued for sync when online"
  ++ "}".

Definition queued_ack : response :=
  mkResponse 200 [("content-type", "application/json")] queued_body.

Definition handlePostRequest (req : request) : M response :=
  try_catch
    (fetch_request req)
    (fun error =>
       (* [fetch(request)] has taken the request's body by now *)
       let req' := consume_body req in
       if startsWith (req_path req) "/api/" then
         storeForBackgroundSync req' ;;
         ret queued_ack
       else throw error).


(* ------------------------------------------------------------------ *)
(** ** Outbox replay (lines 323-354) *)

(** [deleteStore.delete(id)]. *)
Definition delete_pending (k : nat) : M unit :=
  modify (fun w =>
    set_outbox (List.filter (fun p => negb (Nat.eqb (id p) k)) (pending_requests w))
               (next_key w) w).

(** One iteration of the [for] loop, with its own [try]/[catch]. *)
Definition replay_one (requestData : pending_request) : M unit :=
  try_catch
    (let* response := fetch (p_url requestData) in
     if ok response then delete_pending (id requestData) else ret tt)
    (fun _ => ret tt).

Fixpoint replay_all (requests : list pending_request) : M unit :=
  match requests with
  | [] => ret tt
  | requestData :: rest => replay_one requestData ;; replay_all rest
  end.

(** [getAll] returns the records in key order, which is [pending_requests]. *)
Definition syncPendingRequests : M unit :=
  try_catch
    (let* requests := gets pending_requests in
     replay_all requests)
    (fun _ => ret tt).

(* ------------------------------------------------------------------ *)
(** ** Crisis support check (lines 483-521) *)

Definition DAY_MS : Z := 24 * 60 * 60 * 1000.

(** The filter of line 494: at or after [threeDaysAgo] and value at most 2. *)
Definition recentLowMoods (t : Z) (moods : list mood) : list mood :=
  let threeDaysAgo := (t - 3 * DAY_MS)%Z in
  List.filter (fun m => (Z.leb threeDaysAgo (mood_time m) && Z.leb (mood_value m) 2)%bool)
         moods.

Definition crisis_notification : notification :=
  mkNotification "MindChat Support" "crisis-support" true.

Definition checkCrisisSupport : M unit :=
  try_catch
    (let* recentMoods := gets mood_data in
     let* t := gets now in
     if Nat.leb 3 (length (recentLowMoods t recentMoods)) then
       modify (fun w => set_shown (shown w ++ [crisis_notification])%list w)
     else ret tt)
    (fun _ => ret tt).

(* ------------------------------------------------------------------ *)
(** ** Control channel (lines 548-602) *)

(** [cache.add(url)]: fetch, reject a response that is not ok, put (which
    refuses a 206 or [Vary: *] response, and fails when the quota is used
    up). *)
Definition cache_add (cacheName url : string) : M unit :=
  let* r := fetch url in
  if ok r then cache_put cacheName url r
  else throw (TypeError "Request failed").

Definition cacheAudioFile (url : string) : M unit :=
  try_catch (caches_open AUDIO_CACHE ;; cache_add AUDIO_CACHE url)
            (fun _ => ret tt).

Fixpoint delete_caches (names : list string) : M unit :=
  match names with
  | [] => ret tt
  | n :: rest => caches_delete n ;; delete_caches rest
  end.

Definition clearAllCaches : M unit :=
  try_catch
    (let* cacheNames := gets caches_keys in
     delete_caches cacheNames)
    (fun _ => ret tt).

(** [self.registration.sync.register(tag)]: without Background Sync
    support [registration.sync] is undefined and reading [register] from it
    throws a TypeError; a tag that is already registered keeps its one
    registration. *)
Definition sync_register (tag : string) : M unit :=
  let* supported := gets sync_manager in
  if supported then
    modify (fun w => if existsb (String.eqb tag) (sync_registered w) then w
                     else set_sync (sync_registered w ++ [tag])%list w)
  else throw (TypeError "Cannot read properties of undefined (reading 'register')").

Definition triggerSync (tag : string) : M unit :=
  try_catch (sync_register tag) (fun _ => ret tt).

(** [event.data] of a control message. *)
Record message := mkMessage {
  msg_type : option string;
  msg_url : string;
  msg_tag : string
}.

(** The [message] listener.  The handlers it starts are not awaited; the
    result is the world once the started handler has completed. *)
Definition message_event (data : option message) : M unit :=
  match data with
  | Some d =>
      match msg_type d with
      | Some ty =>
          if String.eqb ty "" then ret tt
          else if String.eqb ty "SKIP_WAITING" then modify (set_skipped true)
          else if String.eqb ty "CACHE_AUDIO" then cacheAudioFile (msg_url d)
          else if String.eqb ty "CLEAR_CACHE" then clearAllCaches
          else if String.eqb ty "SYNC_NOW" then triggerSync (msg_tag d)
          else ret tt
      | None => ret tt
      end
  | None => ret tt
  end.

(* ------------------------------------------------------------------ *)
(** ** Activation (lines 60-82) *)

Definition expected_cache (cacheName : string) : bool :=
  (String.eqb cacheName STATIC_CACHE || String.eqb cacheName DYNAMIC_CACHE
   || String.eqb cacheName AUDIO_CACHE)%bool.

Fixpoint delete_old (cacheNames : list string) : M unit :=
  match cacheNames with
  | [] => ret tt
  | n :: rest =>
      (if expected_cache n then ret tt else caches_delete n) ;;
      delete_old rest
  end.

Definition activate : M unit :=
  let* cacheNames := gets caches_keys in
  delete_old cacheNames.

(* ------------------------------------------------------------------ *)
(** ** Observations and sample inputs *)

(** The snapshot a partition holds for a fingerprint, as [cache.match]
    sees it. *)
Definition stored (w : world) (cacheName url : string) : option response :=
  match caches w !! cacheName with
  | Some p => p !! url
  | None => None
  end.

(** [k] cache-first calls for one request, one after the other. *)
Fixpoint cacheFirst_calls (k : nat) (req : request) (cacheName : string)
  : M (list response) :=
  match k with
  | O => ret []
  | S k' =>
      let* r := cacheFirstStrategy req cacheName in
      let* rs := cacheFirst_calls k' req cacheName in
      ret (r :: rs)
  end.

(** An empty world: no partitions, empty stores, the network as given. *)
Definition world_with (t : Z) (net : list (option response)) : world :=
  mkWorld ∅ [] 0 [] t net [] [] [] [] false false true.

(** A GET request as the browser hands it over, for a path without query. *)
Definition get_request (path : string) : request :=
  mkRequest "GET" path path [] None false.

Definition resp (s : Z) (b : string) : response := mkResponse s [] b.

(** The world after [caches.open(n)] and after a successful
    [cache.put]. *)
Definition open_world (n : string) (w : world) : world :=
  match caches w !! n with
  | Some _ => w
  | None => set_caches (<[n := ∅]> (caches w)) w
  end.

Definition put_world (n u : string) (r : response) (w : world) : world :=
  let p := match caches w !! n with Some p => p | None => ∅ end in
  set_caches (<[n := <[u := r]> p]> (caches w)) w.

(** Whether [cache.put] stores [r] when the quota flag is [full], and the
    error it rejects with otherwise. *)
Definition put_accepts (full : bool) (r : response) : bool :=
  (negb (Z.eqb (status r) 206) && negb (vary_star r) && negb full)%bool.

Definition put_error (r : response) : exn :=
  if Z.eqb (status r) 206 then TypeError "Partial response (status code 206) is unsupported"
  else if vary_star r then TypeError "Vary header contains *"
  else QuotaExceededError.

(** Sample inputs. *)
Definition audio_request := get_request "/audio/breathing-basics-64k.mp3".
Definition mood_request := get_request "/api/mood-data".
Definition page_request := get_request "/journal".
Definition partial_content := resp 206 "partial".
Definition fresh_ok := resp 200 "fresh".
Definition server_error := resp 500 "server error".
Definition old_snapshot := resp 200 "old".

(** A world whose dynamic partition already holds [snap] for [url]. *)
Definition world_cached (url : string) (snap : response)
  (net : list (option response)) : world :=
  put_world DYNAMIC_CACHE url snap (world_with 0 net).

(** [handleGetRequest]'s [try]/[catch] around a strategy. *)
Definition with_fallback (req : request) (m : M response) : M response :=
  try_catch m (fun _ => getFallbackResponse req).

(** Line 101: the path ends with one of the static assets. *)
Definition static_match (path : string) : bool :=
  existsb (fun asset => endsWith path asset) STATIC_ASSETS.

(** The Outbox entries a replay leaves behind, the entries being replayed
    against the network outcomes [outs] one by one: an entry stays unless
    its request resolved with an ok (2xx) response. *)
Fixpoint replay_survivors (l : list pending_request)
  (outs : list (option response)) : list pending_request :=
  match l, outs with
  | [], _ => []
  | e :: l', Some r :: outs' =>
      if ok r then replay_survivors l' outs' else e :: replay_survivors l' outs'
  | e :: l', None :: outs' => e :: replay_survivors l' outs'
  | e :: l', [] => e :: replay_survivors l' []
  end.

(** Outbox entries for samples. *)
Definition pending_sample (k : nat) (path : string) : pending_request :=
  mkPending k path "POST" [("content-type", "application/json")] "{}" 0.

(** A world whose Outbox holds [l], the key generator past its keys. *)
Definition world_outbox (l : list pending_request)
  (net : list (option response)) : world :=
  mkWorld ∅ l (S (fold_right Nat.max 0 (map id l))) [] 0 net [] [] [] [] false
    false true.

(** A world holding the named partitions, all empty. *)
Definition world_partitions (names : list string) : world :=
  mkWorld (list_to_map (map (fun n => (n, ∅)) names)) [] 0 [] 0 [] [] [] [] [] false
    false true.

(** A control message with only a type. *)
Definition command (ty : string) : message := mkMessage (Some ty) "" "".

(** A world at time [t] (ms) whose [mood_data] store holds [l]. *)
Definition world_moods (t : Z) (l : list mood) : world :=
  mkWorld ∅ [] 0 l t [] [] [] [] [] false false true.

(** 2026-10-17T12:00Z, and the UTC midnights that [new Date] gives for the
    dates "2026-10-16", "2026-10-15" and "2026-10-14". *)
Definition noon_2026_10_17 : Z := 1792238400000.
Definition date_2026_10_16 : Z := 1792108800000.
Definition date_2026_10_15 : Z := 1792022400000.
Definition date_2026_10_14 : Z := 1791936000000.

(* ------------------------------------------------------------------ *)
(** ** Installation (lines 35-58) *)

Definition BREATHING_AUDIO := "/audio/breathing-basics-64k.mp3".

(** The fetches [cache.addAll] issues, one per URL, all of them issued;
    a rejected fetch is recorded as [None]. *)
Fixpoint fetch_each (urls : list string) : M (list (option response)) :=
  match urls with
  | [] => ret []
  | u :: rest =>
      let* o := try_catch (let* r := fetch u in ret (Some r)) (fun _ => ret None) in
      let* os := fetch_each rest in
      ret (o :: os)
  end.

(** A fetch outcome [cache.addAll] accepts: a response that is ok, not
    partial (status 206) and without a [Vary] field value "*". *)
Definition addAll_accepts (o : option response) : bool :=
  match o with
  | Some r => (ok r && negb (Z.eqb (status r) 206) && negb (vary_star r))%bool
  | None => false
  end.

Fixpoint put_all (cacheName : string) (entries : list (string * option response))
  : M unit :=
  match entries with
  | [] => ret tt
  | (u, Some r) :: rest => cache_put cacheName u r ;; put_all cacheName rest
  | (_, None) :: rest => put_all cacheName rest
  end.

(** [cache.addAll(urls)]: all or nothing.  When one of the fetches rejects
    or gives a response that is not accepted, the promise rejects and the
    partition is left as it was. *)
Definition cache_addAll (cacheName : string) (urls : list string) : M unit :=
  let* outs := fetch_each urls in
  if forallb addAll_accepts outs then put_all cacheName (combine urls outs)
  else throw (TypeError "Request failed").

(** The settled outcome of a promise, as [Promise.all] observes it. *)
Definition settled {A} (m : M A) : M (result A) :=
  try_catch (let* a := m in ret (Ok a)) (fun e => ret (Err e)).

(** The [install] listener: both branches of the [Promise.all] run to the
    end (the static one is taken to settle first); the combined promise
    rejects when either rejects, and [skipWaiting] is called only when
    both resolve. *)
Definition install : M unit :=
  let* a := settled (caches_open STATIC_CACHE ;;
                     cache_addAll STATIC_CACHE STATIC_ASSETS) in
  let* b := settled (caches_open AUDIO_CACHE ;;
                     cache_add AUDIO_CACHE BREATHING_AUDIO) in
  match a, b with
  | Ok _, Ok _ => modify (set_skipped true)
  | Err e, _ => throw e
  | _, Err e => throw e
  end.

(* ------------------------------------------------------------------ *)
(** ** Mood data sync (lines 356-383) *)

Definition set_moods l w :=
  mkWorld (caches w) (pending_requests w) (next_key w) l (now w)
    (network w) (fetch_log w) (jobs w) (shown w) (sync_registered w)
    (skipped_waiting w) (quota_exceeded w) (sync_manager w).

Definition syncMoodData : M unit :=
  try_catch
    (let* moodData := gets mood_data in
     if Nat.ltb 0 (length moodData) then
       let* response := fetch "/api/sync-mood" in
       if ok response then modify (set_moods []) else ret tt
     else ret tt)
    (fun _ => ret tt).

(* ------------------------------------------------------------------ *)
(** ** Periodic sync and the mood reminder (lines 472-546) *)

(** The proleptic Gregorian date (year, month, day) of a day count since
    1970-01-01. *)
Definition civil_from_days (days : Z) : Z * Z * Z :=
  let z := (days + 719468)%Z in
  let era := (z / 146097)%Z in
  let doe := (z - era * 146097)%Z in
  let yoe := ((doe - doe / 1460 + doe / 36524 - doe / 146096) / 365)%Z in
  let doy := (doe - (365 * yoe + yoe / 4 - yoe / 100))%Z in
  let mp := ((5 * doy + 2) / 153)%Z in
  let d := (doy - (153 * mp + 2) / 5 + 1)%Z in
  let m := if Z.ltb mp 10 then (mp + 3)%Z else (mp - 9)%Z in
  let y := (yoe + era * 400 + (if Z.leb m 2 then 1 else 0))%Z in
  (y, m, d).

Fixpoint digits (k : nat) (n : Z) : string :=
  match k with
  | O => ""
  | S k' => digits k' (n / 10) ++
            String (Ascii.ascii_of_nat (48 + Z.to_nat (n mod 10))) EmptyString
  end.

(** [new Date(t).toISOString().split('T')[0]] for years 0 to 9999. *)
Definition iso_date (t : Z) : string :=
  let '(y, m, d) := civil_from_days (t / DAY_MS) in
  digits 4 y ++ "-" ++ digits 2 m ++ "-" ++ digits 2 d.

(** [localStorage.getItem(key)].  Web Storage is not exposed in a service
    worker's global scope, so the identifier [localStorage] is unbound
    there and evaluating it throws a ReferenceError. *)
Definition localStorage_getItem (key : string) : M (option string) :=
  throw (Error "ReferenceError: localStorage is not defined").

Definition reminder_notification : notification :=
  mkNotification "MindChat Reminder" "mood-reminder" false.

Definition sendMoodReminder : M unit :=
  try_catch
    (let* t := gets now in
     let today := iso_date t in
     let* moodToday := localStorage_getItem ("mood_" ++ today) in
     (* [!moodToday]: null and the empty string are falsy *)
     let missing := match moodToday with
                    | Some v => String.eqb v ""
                    | None => true
                    end in
     if missing then
       modify (fun w => set_shown (shown w ++ [reminder_notification])%list w)
     else ret tt)
    (fun _ => ret tt).

(** The [periodicsync] listener. *)
Definition periodicsync_event (tag : string) : M unit :=
  if String.eqb tag "crisis-check" then checkCrisisSupport
  else if String.eqb tag "mood-reminder" then sendMoodReminder
  else ret tt.

(* ------------------------------------------------------------------ *)
(** ** Push and notification clicks (lines 423-470) *)

(** [event.data.json()] as far as the shown notification depends on it:
    the title, the tag ([None] when absent) and the truthiness of
    [urgent] ([None] when absent). *)
Record push_data := mkPushData {
  pd_title : string;
  pd_tag : option string;
  pd_urgent : option bool
}.

(** [data.tag || 'mindchat-notification']. *)
Definition push_tag (t : option string) : string :=
  match t with
  | Some s => if String.eqb s "" then "mindchat-notification" else s
  | None => "mindchat-notification"
  end.

(** [data.urgent || false]. *)
Definition push_urgent (u : option bool) : bool :=
  match u with Some b => b | None => false end.

(** The [push] listener: [None] when the event carries no data. *)
Definition push_event (data : option push_data) : M unit :=
  match data with
  | Some d =>
      modify (fun w =>
        set_shown (shown w ++ [mkNotification (pd_title d) (push_tag (pd_tag d))
                                              (push_urgent (pd_urgent d))])%list w)
  | None => ret tt
  end.

(** A window client from [clients.matchAll]: its [url] (an absolute URL,
    as [Client.url] always is) and whether ['focus' in client]. *)
Record client := mkClient { c_url : string; c_focusable : bool }.

Inductive click_action :=
| Focus (c : client)
| OpenWindow (url : string)
| NoAction.

(** [event.notification.data?.url || '/']. *)
Definition url_to_open (data_url : option string) : string :=
  match data_url with
  | Some u => if String.eqb u "" then "/" else u
  | None => "/"
  end.

(** The [notificationclick] listener: what it does with the client list
    and whether [clients.openWindow] exists. *)
Definition notification_click (data_url : option string) (clientList : list client)
  (canOpenWindow : bool) : click_action :=
  let urlToOpen := url_to_open data_url in
  match List.find (fun c => (String.eqb (c_url c) urlToOpen && c_focusable c)%bool)
                  clientList with
  | Some c => Focus c
  | None => if canOpenWindow then OpenWindow urlToOpen else NoAction
  end.

(* ------------------------------------------------------------------ *)
(** ** Invariants and frame conditions *)

(** The Outbox keys are increasing in store order and below the key
    generator. *)
Definition outbox_wf (w : world) : Prop :=
  StronglySorted lt (map id (pending_requests w)) /\
  Forall (fun p => id p < next_key w) (pending_requests w).

(** Every run of [m] relates the world before and after by [R]. *)
Definition steps (R : world -> world -> Prop) {A} (m : M A) : Prop :=
  forall w, R w (snd (m w)).

(** The IndexedDB stores are as they were. *)
Definition db_same (w w' : world) : Prop :=
  pending_requests w' = pending_requests w /\ next_key w' = next_key w /\
  mood_data w' = mood_data w.

(** Every run of [m] issues at most [n] network fetches. *)
Definition fetches_at_most (n : nat) {A} (m : M A) : Prop :=
  forall w, length (fetch_log (snd (m w))) <= length (fetch_log w) + n.

(** The Outbox invariant is carried from the world before to the world
    after. *)
Definition outbox_kept (w w' : world) : Prop := outbox_wf w -> outbox_wf w'.

(** The world after [cache.add(u)] on partition [n], given the outcome [o]
    of its fetch and the world [w1] that fetch left. *)
Definition add_world (n u : string) (o : option response) (w1 : world) : world :=
  match o with
  | Some r => if (addAll_accepts o && negb (quota_exceeded w1))%bool
              then put_world n u r w1 else w1
  | None => w1
  end.

(* ------------------------------------------------------------------ *)
(** ** Fetch counting and further samples *)

(** The fetch log is as it was. *)
Definition log_same (w w' : world) : Prop := fetch_log w' = fetch_log w.

(** Cache Storage only grows: every partition, and every entry of it,
    present before is present after (an entry may have been overwritten). *)
Definition caches_grow (w w' : world) : Prop :=
  forall n p, caches w !! n = Some p ->
    exists p', caches w' !! n = Some p' /\ forall u, is_Some (p !! u) -> is_Some (p' !! u).

(** The notifications shown are as they were. *)
Definition shown_same (w w' : world) : Prop := shown w' = shown w.

(** The fallback answers of lines 218-221 and 226-233. *)
Definition html_offline : response :=
  mkResponse 503 [("content-type", "text/plain")] "Offline - Please check your connection".
Definition api_offline : response :=
  mkResponse 503 [("content-type", "application/json")] offline_api_body.

(** A page navigation, a world caching only the app shell, an API POST
    with a body, and a world holding three low moods with the network up. *)
Definition nav_request : request :=
  mkRequest "GET" "/journal" "/journal" [("accept", "text/html")] None false.
Definition shell_world : world :=
  put_world STATIC_CACHE "/" (resp 200 "shell") (world_with 0 [None]).
Definition low_moods_online : world :=
  mkWorld ∅ [] 0 [mkMood 0 1; mkMood 0 1; mkMood 0 2] 0 [Some fresh_ok] [] [] [] [] false
    false true.

(* ================================================================== *)
(** * Theorems *)

Lemma caches_open_present (w : world) (n : string) (p : gmap string response) :
  caches w !! n = Some p -> caches_open n w = (Ok tt, w).
Proof. intros E. unfold caches_open, modify. cbn. now rewrite E. Qed.

Lemma stored_some_partition (w : world) (n u : string) (r : response) :
  stored w n u = Some r -> exists p, caches w !! n = Some p /\ p !! u = Some r.
Proof.
  unfold stored. destruct (caches w !! n) as [p|]; [|discriminate].
  intros H. now exists p.
Qed.

Lemma cacheFirst_hit (w : world) (req : request) (n : string) (r : response) :
  stored w n (req_url req) = Some r ->
  cacheFirstStrategy req n w = (Ok r, w).
Proof.
  intros H. destruct (stored_some_partition _ _ _ _ H) as (p & E & Hp).
  unfold cacheFirstStrategy, bind at 1. rewrite (caches_open_present _ _ _ E).
  unfold bind, cache_match, gets. cbn. rewrite E, Hp. reflexivity.
Qed.

(** ** Evaluation rules for the monad and the platform operations *)

Section Eval.
Context {A B : Type}.

Lemma bind_Ok (m : M A) (k : A -> M B) (w w1 : world) (a : A) :
  m w = (Ok a, w1) -> bind m k w = k a w1.
Proof. intros H. unfold bind. now rewrite H. Qed.

Lemma bind_Err (m : M A) (k : A -> M B) (w w1 : world) (e : exn) :
  m w = (Err e, w1) -> bind m k w = (Err e, w1).
Proof. intros H. unfold bind. now rewrite H. Qed.

Lemma try_Ok (m : M A) (h : exn -> M A) (w w1 : world) (a : A) :
  m w = (Ok a, w1) -> try_catch m h w = (Ok a, w1).
Proof. intros H. unfold try_catch. now rewrite H. Qed.

Lemma try_Err (m : M A) (h : exn -> M A) (w w1 : world) (e : exn) :
  m w = (Err e, w1) -> try_catch m h w = h e w1.
Proof. intros H. unfold try_catch. now rewrite H. Qed.

End Eval.

Lemma caches_open_eval (n : string) (w : world) :
  caches_open n w = (Ok tt, open_world n w).
Proof. reflexivity. Qed.

Lemma cache_match_eval (n u : string) (w : world) :
  cache_match n u w = (Ok (stored w n u), w).
Proof. reflexivity. Qed.

Lemma cache_put_run (n u : string) (r : response) (w : world) :
  cache_put n u r w =
  if put_accepts (quota_exceeded w) r then (Ok tt, put_world n u r w)
  else (Err (put_error r), w).
Proof.
  unfold cache_put, put_accepts, put_error, bind, gets, throw, modify.
  destruct (Z.eqb (status r) 206); [reflexivity|].
  destruct (vary_star r); [reflexivity|]. cbn.
  destruct (quota_exceeded w); reflexivity.
Qed.

Lemma cache_put_eval (n u : string) (r : response) (w : world) :
  put_accepts (quota_exceeded w) r = true ->
  cache_put n u r w = (Ok tt, put_world n u r w).
Proof. intros H. now rewrite cache_put_run, H. Qed.

Lemma cache_put_refused (n u : string) (r : response) (w : world) :
  put_accepts (quota_exceeded w) r = false ->
  cache_put n u r w = (Err (put_error r), w).
Proof. intros H. now rewrite cache_put_run, H. Qed.

Lemma fetch_resolved (u : string) (w : world) (r : response)
  (rest : list (option response)) :
  network w = Some r :: rest ->
  fetch u w = (Ok r, set_network rest (fetch_log w ++ [u])%list w).
Proof. intros H. unfold fetch. now rewrite H. Qed.

Lemma fetch_rejected (u : string) (w : world) (rest : list (option response)) :
  network w = None :: rest ->
  fetch u w = (Err NetworkError, set_network rest (fetch_log w ++ [u])%list w).
Proof. intros H. unfold fetch. now rewrite H. Qed.

Lemma fetch_request_fresh (req : request) :
  body_used req = false -> fetch_request req = fetch (req_url req).
Proof. intros H. unfold fetch_request. rewrite H. now destruct (req_body req). Qed.

Lemma stored_open (n m u : string) (w : world) :
  stored (open_world n w) m u = stored w m u.
Proof.
  unfold open_world, stored. destruct (caches w !! n) as [p|] eqn:E; [done|].
  cbn. destruct (decide (m = n)) as [->|Hne].
  - rewrite lookup_insert_eq, E. done.
  - rewrite lookup_insert_ne by done. done.
Qed.

Lemma stored_put (n u m v : string) (r : response) (w : world) :
  stored (put_world n u r w) m v =
  if decide (m = n /\ v = u) then Some r else stored w m v.
Proof.
  unfold put_world, stored. cbn. destruct (decide (m = n)) as [->|Hne].
  - rewrite lookup_insert_eq. destruct (decide (v = u)) as [->|Hv].
    + rewrite lookup_insert_eq. destruct (decide _); tauto.
    + rewrite lookup_insert_ne by done.
      destruct (decide _) as [[_ ?]|_]; [congruence|].
      by destruct (caches w !! n).
  - rewrite lookup_insert_ne by done. destruct (decide _) as [[? _]|_]; [congruence|done].
Qed.

Lemma stored_put_same (n u : string) (r : response) (w : world) :
  stored (put_world n u r w) n u = Some r.
Proof. rewrite stored_put. destruct (decide _); tauto. Qed.

Lemma open_world_fields (n : string) (w : world) :
  network (open_world n w) = network w /\
  fetch_log (open_world n w) = fetch_log w /\
  pending_requests (open_world n w) = pending_requests w /\
  jobs (open_world n w) = jobs w /\
  quota_exceeded (open_world n w) = quota_exceeded w.
Proof. unfold open_world. by destruct (caches w !! n). Qed.

Lemma open_world_quota (n : string) (w : world) :
  quota_exceeded (open_world n w) = quota_exceeded w.
Proof. apply open_world_fields. Qed.

Lemma quota_set_network (rest : list (option response)) (l : list string) (w : world) :
  quota_exceeded (set_network rest l w) = quota_exceeded w.
Proof. reflexivity. Qed.

Lemma open_world_present (n : string) (w : world) :
  is_Some (caches w !! n) -> open_world n w = w.
Proof. unfold open_world. intros [p ->]. done. Qed.

Lemma open_world_idem (n : string) (w : world) :
  open_world n (open_world n w) = open_world n w.
Proof.
  unfold open_world. destruct (caches w !! n) eqn:E.
  - now rewrite E.
  - cbn. now rewrite lookup_insert_eq.
Qed.

Lemma stored_is_Some (w : world) (n u : string) (r : response) :
  stored w n u = Some r -> is_Some (caches w !! n).
Proof. unfold stored. destruct (caches w !! n); [eauto|discriminate]. Qed.

(** The quota flag of the worlds the operations go through. *)
Ltac quota_simpl :=
  cbn [quota_exceeded set_network set_jobs set_caches set_outbox set_shown
       set_sync set_skipped put_world];
  rewrite ?open_world_quota;
  cbn [quota_exceeded set_network set_jobs set_caches set_outbox set_shown
       set_sync set_skipped put_world].

(** ** Cache-first *)

Lemma cacheFirst_miss_resolved (w : world) (req : request) (n : string)
  (r : response) (rest : list (option response)) :
  body_used req = false ->
  stored w n (req_url req) = None ->
  network w = Some r :: rest ->
  put_accepts (quota_exceeded w) r = true ->
  cacheFirstStrategy req n w =
  (Ok r, put_world n (req_url req) r
           (set_network rest (fetch_log w ++ [req_url req])%list (open_world n w))).
Proof.
  intros Hb Hs Hn Hput. unfold cacheFirstStrategy.
  erewrite bind_Ok by apply caches_open_eval.
  erewrite bind_Ok by apply cache_match_eval.
  rewrite stored_open, Hs, fetch_request_fresh by done.
  destruct (open_world_fields n w) as (Hn' & Hl & _).
  erewrite bind_Ok by (apply fetch_resolved; rewrite Hn'; exact Hn).
  erewrite bind_Ok by (apply cache_put_eval; quota_simpl; exact Hput).
  rewrite Hl. reflexivity.
Qed.

Lemma cacheFirst_miss_refused (w : world) (req : request) (n : string)
  (r : response) (rest : list (option response)) :
  body_used req = false ->
  stored w n (req_url req) = None ->
  network w = Some r :: rest ->
  put_accepts (quota_exceeded w) r = false ->
  cacheFirstStrategy req n w =
  (Err (put_error r),
   set_network rest (fetch_log w ++ [req_url req])%list (open_world n w)).
Proof.
  intros Hb Hs Hn Hput. unfold cacheFirstStrategy.
  erewrite bind_Ok by apply caches_open_eval.
  erewrite bind_Ok by apply cache_match_eval.
  rewrite stored_open, Hs, fetch_request_fresh by done.
  destruct (open_world_fields n w) as (Hn' & Hl & _).
  erewrite bind_Ok by (apply fetch_resolved; rewrite Hn'; exact Hn).
  erewrite bind_Err by (apply cache_put_refused; quota_simpl; exact Hput).
  rewrite Hl. reflexivity.
Qed.

Lemma cacheFirst_miss_rejected (w : world) (req : request) (n : string)
  (rest : list (option response)) :
  body_used req = false ->
  stored w n (req_url req) = None ->
  network w = None :: rest ->
  cacheFirstStrategy req n w =
  (Err NetworkError,
   set_network rest (fetch_log w ++ [req_url req])%list (open_world n w)).
Proof.
  intros Hb Hs Hn. unfold cacheFirstStrategy.
  erewrite bind_Ok by apply caches_open_eval.
  erewrite bind_Ok by apply cache_match_eval.
  rewrite stored_open, Hs, fetch_request_fresh by done.
  destruct (open_world_fields n w) as (Hn' & Hl & _).
  erewrite bind_Err by (apply fetch_rejected; rewrite Hn'; exact Hn).
  rewrite Hl. reflexivity.
Qed.

Lemma cacheFirst_calls_hit (k : nat) (w : world) (req : request) (n : string)
  (r : response) :
  stored w n (req_url req) = Some r ->
  cacheFirst_calls k req n w = (Ok (repeat r k), w).
Proof.
  intros H. induction k as [|k IH]; [reflexivity|]. cbn [cacheFirst_calls].
  erewrite bind_Ok by (apply cacheFirst_hit; exact H).
  erewrite bind_Ok by exact IH. reflexivity.
Qed.

Lemma stored_set_network (w : world) (rest : list (option response))
  (l : list string) (n u : string) :
  stored (set_network rest l w) n u = stored w n u.
Proof. reflexivity. Qed.

(** ** Network-first *)

Lemma networkFirst_resolved (w : world) (req : request) (n : string)
  (r : response) (rest : list (option response)) :
  body_used req = false ->
  network w = Some r :: rest ->
  put_accepts (quota_exceeded w) r = true ->
  networkFirstStrategy req n w =
  (Ok r, put_world n (req_url req) r
           (open_world n (set_network rest (fetch_log w ++ [req_url req])%list w))).
Proof.
  intros Hb Hn Hput. unfold networkFirstStrategy.
  rewrite fetch_request_fresh by done.
  apply try_Ok.
  erewrite bind_Ok by (apply fetch_resolved; exact Hn).
  erewrite bind_Ok by apply caches_open_eval.
  erewrite bind_Ok by (apply cache_put_eval; quota_simpl; exact Hput).
  reflexivity.
Qed.

(** What the [catch] block does with the world [w1] it is entered in. *)
Lemma networkFirst_catch (w1 : world) (req : request) (n : string) (e : exn) :
  (caches_open n ;;
   let* cachedResponse := cache_match n (req_url req) in
   match cachedResponse with
   | Some r => ret r
   | None => throw e
   end) w1 =
  (match stored w1 n (req_url req) with
   | Some s => Ok s
   | None => Err e
   end, open_world n w1).
Proof.
  erewrite bind_Ok by apply caches_open_eval.
  erewrite bind_Ok by apply cache_match_eval.
  rewrite stored_open. by destruct (stored w1 n (req_url req)).
Qed.

Lemma networkFirst_rejected (w : world) (req : request) (n : string)
  (rest : list (option response)) :
  body_used req = false ->
  network w = None :: rest ->
  networkFirstStrategy req n w =
  (match stored w n (req_url req) with
   | Some s => Ok s
   | None => Err NetworkError
   end,
   open_world n (set_network rest (fetch_log w ++ [req_url req])%list w)).
Proof.
  intros Hb Hn. unfold networkFirstStrategy.
  rewrite fetch_request_fresh by done.
  erewrite try_Err.
  2:{ erewrite bind_Err by (apply fetch_rejected; exact Hn). reflexivity. }
  rewrite networkFirst_catch, stored_set_network. reflexivity.
Qed.

Lemma networkFirst_refused (w : world) (req : request) (n : string)
  (r : response) (rest : list (option response)) :
  body_used req = false ->
  network w = Some r :: rest ->
  put_accepts (quota_exceeded w) r = false ->
  networkFirstStrategy req n w =
  (match stored w n (req_url req) with
   | Some s => Ok s
   | None => Err (put_error r)
   end,
   open_world n (set_network rest (fetch_log w ++ [req_url req])%list w)).
Proof.
  intros Hb Hn Hput. unfold networkFirstStrategy.
  rewrite fetch_request_fresh by done.
  erewrite try_Err.
  2:{ erewrite bind_Ok by (apply fetch_resolved; exact Hn).
      erewrite bind_Ok by apply caches_open_eval.
      erewrite bind_Err by (apply cache_put_refused; quota_simpl; exact Hput).
      reflexivity. }
  rewrite networkFirst_catch, stored_open, stored_set_network, open_world_idem.
  reflexivity.
Qed.

(** ** Stale-while-revalidate *)

Lemma put_or_null_eval (n u : string) (r : response) (w : world) :
  put_or_null n u r w =
  if put_accepts (quota_exceeded w) r then (Ok (Some r), put_world n u r w)
  else (Ok None, w).
Proof.
  unfold put_or_null. destruct (put_accepts (quota_exceeded w) r) eqn:E.
  - apply try_Ok. erewrite bind_Ok by (apply cache_put_eval; exact E). reflexivity.
  - erewrite try_Err by (erewrite bind_Err by (apply cache_put_refused; exact E);
                         reflexivity).
    reflexivity.
Qed.

Lemma run_job_eval (n u : string) (r : response) (w : world) :
  run_job (JPut n u r) w =
  (Ok tt, if put_accepts (quota_exceeded w) r then put_world n u r w else w).
Proof.
  unfold run_job. destruct (put_accepts (quota_exceeded w) r) eqn:E;
    (erewrite bind_Ok by (rewrite put_or_null_eval, E; reflexivity)); reflexivity.
Qed.

(** The background fetch, issued in the world [w1]. *)
Lemma background_fetch_eval (req : request) (w1 : world) (o : option response)
  (rest : list (option response)) :
  body_used req = false ->
  network w1 = o :: rest ->
  try_catch (let* r := fetch_request req in ret (Some r)) (fun _ => ret None) w1
  = (Ok o, set_network rest (fetch_log w1 ++ [req_url req])%list w1).
Proof.
  intros Hb Hn. rewrite fetch_request_fresh by done. destruct o as [r|].
  - apply try_Ok. erewrite bind_Ok by (apply fetch_resolved; exact Hn).
    reflexivity.
  - erewrite try_Err by (erewrite bind_Err by (apply fetch_rejected; exact Hn);
                         reflexivity).
    reflexivity.
Qed.

Lemma swr_hit (w : world) (req : request) (n : string) (c : response)
  (o : option response) (rest : list (option response)) :
  body_used req = false ->
  stored w n (req_url req) = Some c ->
  network w = o :: rest ->
  staleWhileRevalidateStrategy req n w =
  (Ok c, set_jobs (jobs w ++ match o with
                             | Some r => [JPut n (req_url req) r]
                             | None => []
                             end)%list
           (set_network rest (fetch_log w ++ [req_url req])%list w)).
Proof.
  intros Hb Hs Hn. unfold staleWhileRevalidateStrategy.
  erewrite bind_Ok by (rewrite caches_open_eval, open_world_present
                         by (eapply stored_is_Some; exact Hs); reflexivity).
  erewrite bind_Ok by apply cache_match_eval. rewrite Hs.
  erewrite bind_Ok by (apply background_fetch_eval; [exact Hb|exact Hn]).
  destruct o as [r|].
  - erewrite bind_Ok by reflexivity. reflexivity.
  - erewrite bind_Ok by reflexivity. cbn. rewrite app_nil_r.
    destruct w; reflexivity.
Qed.

Lemma swr_miss (w : world) (req : request) (n : string)
  (o : option response) (rest : list (option response)) :
  body_used req = false ->
  stored w n (req_url req) = None ->
  network w = o :: rest ->
  staleWhileRevalidateStrategy req n w =
  let w1 := set_network rest (fetch_log w ++ [req_url req])%list (open_world n w) in
  match o with
  | Some r =>
      if put_accepts (quota_exceeded w) r
      then (Ok r, put_world n (req_url req) r w1)
      else (Err (Error "No cached response and network unavailable"), w1)
  | None => (Err (Error "No cached response and network unavailable"), w1)
  end.
Proof.
  intros Hb Hs Hn. unfold staleWhileRevalidateStrategy.
  destruct (open_world_fields n w) as (Hn' & Hl & _ & _ & Hq).
  erewrite bind_Ok by apply caches_open_eval.
  erewrite bind_Ok by apply cache_match_eval. rewrite stored_open, Hs.
  erewrite bind_Ok by (apply background_fetch_eval; [exact Hb|rewrite Hn'; exact Hn]).
  rewrite Hl. destruct o as [r|].
  - cbv zeta. destruct (put_accepts (quota_exceeded w) r) eqn:E;
      (erewrite bind_Ok by (rewrite put_or_null_eval; quota_simpl; rewrite E; reflexivity));
      reflexivity.
  - erewrite bind_Ok by reflexivity. reflexivity.
Qed.

(** ** Settling the continuations *)

Lemma run_job_ok (j : job) (w : world) :
  run_job j w = (Ok tt, snd (run_job j w)).
Proof. destruct j as [n u r]. now rewrite run_job_eval. Qed.

Lemma run_jobs_ok (l : list job) (w : world) :
  run_jobs l w = (Ok tt, snd (run_jobs l w)).
Proof.
  revert w. induction l as [|j l IH]; intros w; [reflexivity|]. cbn [run_jobs].
  erewrite bind_Ok by apply run_job_ok. apply IH.
Qed.

Lemma run_jobs_snoc (l : list job) (j : job) (w : world) :
  snd (run_jobs (l ++ [j])%list w) = snd (run_job j (snd (run_jobs l w))).
Proof.
  revert w. induction l as [|j' l IH]; intros w; cbn [app run_jobs].
  - erewrite bind_Ok by apply run_job_ok. reflexivity.
  - erewrite bind_Ok by apply run_job_ok. rewrite IH.
    erewrite (bind_Ok (run_job j') _ w) by apply run_job_ok. reflexivity.
Qed.

Lemma run_job_quota (j : job) (w : world) :
  quota_exceeded (snd (run_job j w)) = quota_exceeded w.
Proof.
  destruct j as [n u r]. rewrite run_job_eval. cbn [snd].
  by destruct (put_accepts _ r).
Qed.

Lemma run_jobs_quota (l : list job) (w : world) :
  quota_exceeded (snd (run_jobs l w)) = quota_exceeded w.
Proof.
  revert w. induction l as [|j l IH]; intros w; [reflexivity|]. cbn [run_jobs].
  erewrite bind_Ok by apply run_job_ok. rewrite IH. apply run_job_quota.
Qed.

(** Running the same continuations from two worlds that hold the same
    snapshots and quota flag ends with the same snapshots. *)
Lemma run_jobs_stored (l : list job) (w1 w2 : world) :
  (forall m v, stored w1 m v = stored w2 m v) ->
  quota_exceeded w1 = quota_exceeded w2 ->
  forall m v, stored (snd (run_jobs l w1)) m v = stored (snd (run_jobs l w2)) m v.
Proof.
  revert w1 w2. induction l as [|[n u r] l IH]; intros w1 w2 Hs Hq; [exact Hs|].
  cbn [run_jobs]. erewrite !bind_Ok by apply run_job_ok. apply IH.
  - intros m v. rewrite !run_job_eval. cbn [snd]. rewrite Hq.
    destruct (put_accepts _ r); [rewrite !stored_put|]; rewrite ?Hs; reflexivity.
  - now rewrite !run_job_quota.
Qed.

Lemma settle_eval (w : world) :
  snd (settle w) = snd (run_jobs (jobs w) (set_jobs [] w)).
Proof.
  unfold settle. erewrite bind_Ok by reflexivity. erewrite bind_Ok by reflexivity.
  reflexivity.
Qed.

(** ** Claims on the caching strategies *)

(** C2 (amended). Cache-first: a stored snapshot is returned with no fetch
    and the world untouched.  Without one, exactly one fetch is issued.  A
    response that [cache.put] accepts (status other than 206, no [Vary]
    field value "*", storage quota not used up) is stored and returned,
    after which every later cache-first call for the fingerprint returns
    the snapshot with no fetch.  A response that [cache.put] refuses is not
    stored and the call fails with the put's error; a rejected fetch
    propagates its failure and stores nothing. *)
Theorem cacheFirst_contract :
  (forall (w : world) (req : request) (n : string) (c : response),
     stored w n (req_url req) = Some c ->
     cacheFirstStrategy req n w = (Ok c, w)) /\
  (forall (w : world) (req : request) (n : string) (r : response)
          (rest : list (option response)),
     body_used req = false -> stored w n (req_url req) = None ->
     network w = Some r :: rest -> put_accepts (quota_exceeded w) r = true ->
     exists w', cacheFirstStrategy req n w = (Ok r, w') /\
       network w' = rest /\
       fetch_log w' = (fetch_log w ++ [req_url req])%list /\
       stored w' n (req_url req) = Some r /\
       forall k, cacheFirst_calls k req n w' = (Ok (repeat r k), w')) /\
  (forall (w : world) (req : request) (n : string) (r : response)
          (rest : list (option response)),
     body_used req = false -> stored w n (req_url req) = None ->
     network w = Some r :: rest -> put_accepts (quota_exceeded w) r = false ->
     exists w', cacheFirstStrategy req n w = (Err (put_error r), w') /\
       fetch_log w' = (fetch_log w ++ [req_url req])%list /\
       stored w' n (req_url req) = None) /\
  (forall (w : world) (req : request) (n : string)
          (rest : list (option response)),
     body_used req = false -> stored w n (req_url req) = None ->
     network w = None :: rest ->
     exists w', cacheFirstStrategy req n w = (Err NetworkError, w') /\
       fetch_log w' = (fetch_log w ++ [req_url req])%list /\
       stored w' n (req_url req) = None).
Proof.
  split; [exact cacheFirst_hit|]. split; [|split].
  - intros w req n r rest Hb Hs Hn Hput.
    rewrite (cacheFirst_miss_resolved w req n r rest) by done.
    eexists. split; [reflexivity|].
    split; [reflexivity|]. split; [reflexivity|]. split; [apply stored_put_same|].
    intros k. apply cacheFirst_calls_hit. apply stored_put_same.
  - intros w req n r rest Hb Hs Hn Hput.
    rewrite (cacheFirst_miss_refused w req n r rest) by done.
    eexists. split; [reflexivity|]. split; [reflexivity|].
    rewrite stored_set_network, stored_open. exact Hs.
  - intros w req n rest Hb Hs Hn.
    rewrite (cacheFirst_miss_rejected w req n rest) by done.
    eexists. split; [reflexivity|]. split; [reflexivity|].
    rewrite stored_set_network, stored_open. exact Hs.
Qed.

(** C2 counterexample: an uncached audio file whose fetch resolves with a
    206 partial response is neither stored nor returned. *)
Lemma cacheFirst_partial_not_cached :
  fst (cacheFirstStrategy audio_request AUDIO_CACHE
         (world_with 0 [Some partial_content])) <> Ok partial_content /\
  stored (snd (cacheFirstStrategy audio_request AUDIO_CACHE
                 (world_with 0 [Some partial_content])))
         AUDIO_CACHE (req_url audio_request) = None.
Proof. vm_compute. split; [discriminate|reflexivity]. Qed.

(** C3 (amended). Network-first: a fetch resolving with a response that
    [cache.put] accepts is stored, overwriting the entry, and returned,
    other entries unchanged.  A rejected fetch returns the stored snapshot,
    or propagates the rejection when there is none, and changes no entry.
    A response that [cache.put] refuses (status 206, a [Vary] field value
    "*", or the quota used up) is not stored; the strategy then returns the
    stored snapshot, or fails with the put's error, and changes no entry. *)
Theorem networkFirst_contract :
  (forall (w : world) (req : request) (n : string) (r : response)
          (rest : list (option response)),
     body_used req = false -> network w = Some r :: rest ->
     put_accepts (quota_exceeded w) r = true ->
     exists w', networkFirstStrategy req n w = (Ok r, w') /\
       stored w' n (req_url req) = Some r /\
       (forall m v, ~ (m = n /\ v = req_url req) -> stored w' m v = stored w m v)) /\
  (forall (w : world) (req : request) (n : string)
          (rest : list (option response)),
     body_used req = false -> network w = None :: rest ->
     exists w', networkFirstStrategy req n w =
                (match stored w n (req_url req) with
                 | Some s => Ok s
                 | None => Err NetworkError
                 end, w') /\
       (forall m v, stored w' m v = stored w m v)) /\
  (forall (w : world) (req : request) (n : string) (r : response)
          (rest : list (option response)),
     body_used req = false -> network w = Some r :: rest ->
     put_accepts (quota_exceeded w) r = false ->
     exists w', networkFirstStrategy req n w =
                (match stored w n (req_url req) with
                 | Some s => Ok s
                 | None => Err (put_error r)
                 end, w') /\
       (forall m v, stored w' m v = stored w m v)).
Proof.
  split; [|split].
  - intros w req n r rest Hb Hn Hput.
    rewrite (networkFirst_resolved w req n r rest) by done.
    eexists. split; [reflexivity|]. split; [apply stored_put_same|].
    intros m v Hne. rewrite stored_put, stored_open, stored_set_network.
    destruct (decide _); tauto.
  - intros w req n rest Hb Hn.
    rewrite (networkFirst_rejected w req n rest) by done.
    eexists. split; [reflexivity|].
    intros m v. now rewrite stored_open, stored_set_network.
  - intros w req n r rest Hb Hn Hput.
    rewrite (networkFirst_refused w req n r rest) by done.
    eexists. split; [reflexivity|].
    intros m v. now rewrite stored_open, stored_set_network.
Qed.

(** C3 counterexample: with a snapshot stored, a fetch that resolves with
    a 206 response does not reach the caller, who gets the old snapshot. *)
Lemma networkFirst_partial_returns_snapshot :
  fst (networkFirstStrategy mood_request DYNAMIC_CACHE
         (world_cached "/api/mood-data" old_snapshot [Some partial_content]))
  = Ok old_snapshot /\ Ok old_snapshot <> Ok partial_content.
Proof. vm_compute. split; [reflexivity|discriminate]. Qed.

(** C4 (amended). Stale-while-revalidate always issues the network fetch.
    With a snapshot stored, the snapshot is returned at once, no entry
    changed and the fetch's outcome not awaited: a resolved fetch leaves a
    continuation in [jobs], which, when it runs, stores the response if
    [cache.put] accepts it and otherwise changes nothing (a rejected fetch
    leaves no continuation).  Without a snapshot, the fetch is awaited: a
    response that [cache.put] accepts is stored and returned; a refused
    response or a rejected fetch ends in
    [Error("No cached response and network unavailable")], nothing stored. *)
Theorem swr_contract :
  (forall (w : world) (req : request) (n : string) (c : response)
          (o : option response) (rest : list (option response)),
     body_used req = false -> stored w n (req_url req) = Some c ->
     network w = o :: rest ->
     exists w', staleWhileRevalidateStrategy req n w = (Ok c, w') /\
       fetch_log w' = (fetch_log w ++ [req_url req])%list /\
       network w' = rest /\
       (forall m v, stored w' m v = stored w m v) /\
       jobs w' = (jobs w ++ match o with
                            | Some r => [JPut n (req_url req) r]
                            | None => []
                            end)%list) /\
  (forall (w : world) (n u : string) (r : response),
     put_accepts (quota_exceeded w) r = true ->
     exists w', run_job (JPut n u r) w = (Ok tt, w') /\ stored w' n u = Some r) /\
  (forall (w : world) (n u : string) (r : response),
     put_accepts (quota_exceeded w) r = false -> run_job (JPut n u r) w = (Ok tt, w)) /\
  (forall (w : world) (req : request) (n : string) (r : response)
          (rest : list (option response)),
     body_used req = false -> stored w n (req_url req) = None ->
     network w = Some r :: rest -> put_accepts (quota_exceeded w) r = true ->
     exists w', staleWhileRevalidateStrategy req n w = (Ok r, w') /\
       fetch_log w' = (fetch_log w ++ [req_url req])%list /\
       stored w' n (req_url req) = Some r) /\
  (forall (w : world) (req : request) (n : string) (o : option response)
          (rest : list (option response)),
     body_used req = false -> stored w n (req_url req) = None ->
     network w = o :: rest ->
     (o = None \/ exists r, o = Some r /\ put_accepts (quota_exceeded w) r = false) ->
     exists w', staleWhileRevalidateStrategy req n w =
                (Err (Error "No cached response and network unavailable"), w') /\
       fetch_log w' = (fetch_log w ++ [req_url req])%list /\
       stored w' n (req_url req) = None).
Proof.
  split; [|split; [|split; [|split]]].
  - intros w req n c o rest Hb Hs Hn.
    rewrite (swr_hit w req n c o rest) by done.
    eexists. split; [reflexivity|]. split; [reflexivity|]. split; [reflexivity|].
    split; [|reflexivity]. intros m v. reflexivity.
  - intros w n u r Hput. rewrite run_job_eval, Hput.
    eexists. split; [reflexivity|]. apply stored_put_same.
  - intros w n u r Hput. rewrite run_job_eval. now rewrite Hput.
  - intros w req n r rest Hb Hs Hn Hput.
    rewrite (swr_miss w req n (Some r) rest) by done. cbv zeta. rewrite Hput.
    eexists. split; [reflexivity|]. split; [|apply stored_put_same].
    cbn. destruct (open_world_fields n w) as (_ & Hl & _). reflexivity.
  - intros w req n o rest Hb Hs Hn Ho.
    rewrite (swr_miss w req n o rest) by done. cbv zeta.
    destruct Ho as [->|(r & -> & Hput)]; [|rewrite Hput];
      (eexists; split; [reflexivity|]; split;
       [reflexivity|now rewrite stored_set_network, stored_open]).
Qed.

(** C4 counterexample: with nothing stored, a fetch resolving with a 206
    response is awaited but not returned; the call fails. *)
Lemma swr_partial_fails :
  fst (staleWhileRevalidateStrategy page_request DYNAMIC_CACHE
         (world_with 0 [Some partial_content]))
  = Err (Error "No cached response and network unavailable").
Proof. vm_compute. reflexivity. Qed.

Lemma cacheFirst_unchanged (w : world) (req : request) (n : string)
  (o : option response) (rest : list (option response)) :
  body_used req = false -> network w = o :: rest ->
  (o = None \/ exists r, o = Some r /\ put_accepts (quota_exceeded w) r = false) ->
  forall m v, stored (snd (cacheFirstStrategy req n w)) m v = stored w m v.
Proof.
  intros Hb Hn Ho m v. destruct (stored w n (req_url req)) as [c|] eqn:Hs.
  - now rewrite (cacheFirst_hit w req n c Hs).
  - destruct Ho as [->|(r & -> & Hput)].
    + rewrite (cacheFirst_miss_rejected w req n rest) by done. cbn [snd].
      now rewrite stored_set_network, stored_open.
    + rewrite (cacheFirst_miss_refused w req n r rest) by done. cbn [snd].
      now rewrite stored_set_network, stored_open.
Qed.

Lemma swr_unchanged (w : world) (req : request) (n : string)
  (o : option response) (rest : list (option response)) :
  body_used req = false -> network w = o :: rest ->
  (o = None \/ exists r, o = Some r /\ put_accepts (quota_exceeded w) r = false) ->
  forall m v, stored (snd (staleWhileRevalidateStrategy req n w)) m v = stored w m v.
Proof.
  intros Hb Hn Ho m v. destruct (stored w n (req_url req)) as [c|] eqn:Hs.
  - now rewrite (swr_hit w req n c o rest).
  - rewrite (swr_miss w req n o rest) by done. cbv zeta.
    destruct Ho as [->|(r & -> & Hput)].
    + cbn [snd]. now rewrite stored_set_network, stored_open.
    + rewrite Hput. cbn [snd]. now rewrite stored_set_network, stored_open.
Qed.

(** Settling the continuations after a stale-while-revalidate call whose
    fetch was rejected or refused ends with the snapshots that settling
    them before the call would have left. *)
Lemma swr_settle_unchanged (w : world) (req : request) (n : string)
  (o : option response) (rest : list (option response)) :
  body_used req = false -> network w = o :: rest ->
  (o = None \/ exists r, o = Some r /\ put_accepts (quota_exceeded w) r = false) ->
  forall m v,
    stored (snd (settle (snd (staleWhileRevalidateStrategy req n w)))) m v =
    stored (snd (settle w)) m v.
Proof.
  intros Hb Hn Ho m v. rewrite !settle_eval.
  destruct (stored w n (req_url req)) as [c|] eqn:Hs.
  - rewrite (swr_hit w req n c o rest) by done. cbn [snd jobs set_jobs].
    destruct Ho as [->|(r & -> & Hput)].
    + rewrite app_nil_r. apply run_jobs_stored; reflexivity.
    + rewrite run_jobs_snoc, run_job_eval, run_jobs_quota. cbn [quota_exceeded set_jobs set_network].
      rewrite Hput. apply run_jobs_stored; reflexivity.
  - rewrite (swr_miss w req n o rest) by done. cbv zeta.
    destruct (open_world_fields n w) as (_ & _ & _ & Hj & Hq).
    destruct Ho as [->|(r & -> & Hput)]; [|rewrite Hput]; cbn [snd jobs set_network];
      rewrite Hj; apply run_jobs_stored;
      solve [ intros m' v'; change (stored (open_world n w) m' v' = stored w m' v');
              apply stored_open
            | change (quota_exceeded (open_world n w) = quota_exceeded w); exact Hq ].
Qed.

(** C10 (amended). A response that a strategy's fetch resolves with is
    written into the partition whatever its status, as long as [cache.put]
    accepts it (it refuses status 206 and a [Vary] field value "*", and
    fails when the quota is used up): a 500 is stored like a 200 by
    cache-first on a miss, by network-first, and by stale-while-revalidate,
    on a miss or, on a hit, once the continuation the call leaves has run;
    network-first overwrites a good snapshot with a 500 and returns the 500.
    A rejected fetch, or a response [cache.put] refuses, leaves every entry
    unchanged, the continuations included. *)
Theorem resolved_responses_stored :
  (fst (networkFirstStrategy mood_request DYNAMIC_CACHE
          (world_cached "/api/mood-data" old_snapshot [Some server_error]))
   = Ok server_error /\
   stored (snd (networkFirstStrategy mood_request DYNAMIC_CACHE
                  (world_cached "/api/mood-data" old_snapshot [Some server_error])))
          DYNAMIC_CACHE "/api/mood-data" = Some server_error) /\
  (forall (w : world) (req : request) (n : string) (r : response)
          (rest : list (option response)),
     body_used req = false -> network w = Some r :: rest ->
     put_accepts (quota_exceeded w) r = true ->
     (stored w n (req_url req) = None ->
      exists w', cacheFirstStrategy req n w = (Ok r, w') /\
                 stored w' n (req_url req) = Some r) /\
     (exists w', networkFirstStrategy req n w = (Ok r, w') /\
                 stored w' n (req_url req) = Some r) /\
     (stored w n (req_url req) = None ->
      exists w', staleWhileRevalidateStrategy req n w = (Ok r, w') /\
                 stored w' n (req_url req) = Some r) /\
     (forall c, stored w n (req_url req) = Some c ->
      exists w', staleWhileRevalidateStrategy req n w = (Ok c, w') /\
                 stored w' n (req_url req) = Some c /\
                 stored (snd (settle w')) n (req_url req) = Some r)) /\
  (forall (w : world) (req : request) (n : string) (o : option response)
          (rest : list (option response)),
     body_used req = false -> network w = o :: rest ->
     (o = None \/ exists r, o = Some r /\ put_accepts (quota_exceeded w) r = false) ->
     forall m v,
       stored (snd (cacheFirstStrategy req n w)) m v = stored w m v /\
       stored (snd (networkFirstStrategy req n w)) m v = stored w m v /\
       stored (snd (staleWhileRevalidateStrategy req n w)) m v = stored w m v /\
       stored (snd (settle (snd (staleWhileRevalidateStrategy req n w)))) m v =
       stored (snd (settle w)) m v).
Proof.
  split; [vm_compute; split; reflexivity|]. split.
  - intros w req n r rest Hb Hn Hput. split; [|split; [|split]].
    + intros Hs. rewrite (cacheFirst_miss_resolved w req n r rest) by done.
      eexists. split; [reflexivity|]. apply stored_put_same.
    + rewrite (networkFirst_resolved w req n r rest) by done.
      eexists. split; [reflexivity|]. apply stored_put_same.
    + intros Hs. rewrite (swr_miss w req n (Some r) rest) by done. cbv zeta.
      rewrite Hput. eexists. split; [reflexivity|]. apply stored_put_same.
    + intros c Hs. rewrite (swr_hit w req n c (Some r) rest) by done.
      eexists. split; [reflexivity|]. split; [exact Hs|].
      rewrite settle_eval. cbn [jobs set_jobs].
      rewrite run_jobs_snoc, run_job_eval, run_jobs_quota.
      cbn [quota_exceeded set_jobs set_network]. rewrite Hput. apply stored_put_same.
  - intros w req n o rest Hb Hn Ho m v. split; [|split; [|split]].
    + eapply cacheFirst_unchanged; eauto.
    + destruct Ho as [->|(r & -> & Hput)].
      * rewrite (networkFirst_rejected w req n rest) by done. cbn [snd].
        now rewrite stored_open, stored_set_network.
      * rewrite (networkFirst_refused w req n r rest) by done. cbn [snd].
        now rewrite stored_open, stored_set_network.
    + eapply swr_unchanged; eauto.
    + eapply swr_settle_unchanged; eauto.
Qed.

(** C10 counterexample: a snapshot is stored and the revalidating fetch
    resolves with 206; once the continuation has run, the partition still
    holds the old snapshot. *)
Lemma swr_partial_not_stored :
  stored (snd (settle (snd (staleWhileRevalidateStrategy page_request DYNAMIC_CACHE
            (world_cached "/journal" old_snapshot [Some partial_content])))))
         DYNAMIC_CACHE "/journal" = Some old_snapshot.
Proof. vm_compute. reflexivity. Qed.

(** ** Request classification *)

Lemma endsWith_slash (path : string) :
  endsWith path "/" = true -> static_match path = true.
Proof. intros H. unfold static_match, STATIC_ASSETS. cbn [existsb]. now rewrite H. Qed.

(** C1 (code bug).  The classifier as written: every GET request is
    handled by exactly one strategy, chosen in this order: a path that ends
    with one of the static assets (so every path ending in "/", the first
    asset) is cache-first against the static partition; else a path
    containing "/audio/" anywhere is cache-first against the audio
    partition; else a path starting with "/api/" is network-first against
    the dynamic partition; else stale-while-revalidate against the dynamic
    partition.  A failure of the strategy is answered by the fallback
    response.  The suffix test against "/" catches API paths with a
    trailing slash, which the "Network First for API calls" branch was
    meant to serve. *)
Theorem handleGet_classification (req : request) :
  (static_match (req_path req) = true ->
   handleGetRequest req = with_fallback req (cacheFirstStrategy req STATIC_CACHE)) /\
  (static_match (req_path req) = false ->
   includes (req_path req) "/audio/" = true ->
   handleGetRequest req = with_fallback req (cacheFirstStrategy req AUDIO_CACHE)) /\
  (static_match (req_path req) = false ->
   includes (req_path req) "/audio/" = false ->
   startsWith (req_path req) "/api/" = true ->
   handleGetRequest req = with_fallback req (networkFirstStrategy req DYNAMIC_CACHE)) /\
  (static_match (req_path req) = false ->
   includes (req_path req) "/audio/" = false ->
   startsWith (req_path req) "/api/" = false ->
   handleGetRequest req =
   with_fallback req (staleWhileRevalidateStrategy req DYNAMIC_CACHE)) /\
  (endsWith (req_path req) "/" = true ->
   handleGetRequest req = with_fallback req (cacheFirstStrategy req STATIC_CACHE)).
Proof.
  unfold handleGetRequest, with_fallback. fold (static_match (req_path req)).
  split; [|split; [|split; [|split]]]; intros.
  - now rewrite H.
  - now rewrite H, H0.
  - now rewrite H, H0, H1.
  - now rewrite H, H0, H1.
  - now rewrite endsWith_slash.
Qed.

(** C1 counterexample: "/api/peer-rooms/" is not a static asset, has no
    "/audio/" and starts with "/api/", yet it is served cache-first from
    the static partition, not network-first: offline with an empty cache,
    network-first would answer the API fallback, cache-first answers with
    the generic one.  Online, the first response is pinned in the static
    partition: the next GET of the path issues no fetch and returns that
    first response although the network has a newer one. *)
Lemma api_trailing_slash_not_network_first :
  ~ (forall (req : request) (w : world),
       ~ In (req_path req) STATIC_ASSETS ->
       includes (req_path req) "/audio/" = false ->
       startsWith (req_path req) "/api/" = true ->
       handleGetRequest req w =
       with_fallback req (networkFirstStrategy req DYNAMIC_CACHE) w) /\
  (let req := get_request "/api/peer-rooms/" in
   let w1 := snd (handleGetRequest req (world_with 0 [Some old_snapshot; Some fresh_ok])) in
   stored w1 STATIC_CACHE "/api/peer-rooms/" = Some old_snapshot /\
   fst (handleGetRequest req w1) = Ok old_snapshot /\
   fetch_log (snd (handleGetRequest req w1)) = ["/api/peer-rooms/"] /\
   network (snd (handleGetRequest req w1)) = [Some fresh_ok]).
Proof.
  split; [|vm_compute; repeat split].
  intros H.
  specialize (H (get_request "/api/peer-rooms/") (world_with 0 [])).
  assert (Hin : ~ In (req_path (get_request "/api/peer-rooms/")) STATIC_ASSETS).
  { cbn. intros [E|[E|[E|[E|[E|[]]]]]]; discriminate E. }
  specialize (H Hin eq_refl eq_refl).
  vm_compute in H. discriminate H.
Qed.

(** ** Write path *)




(** ** Outbox replay *)

Lemma filter_keep_all (l : list pending_request) (k : nat) :
  ~ In k (map id l) ->
  List.filter (fun p => negb (Nat.eqb (id p) k)) l = l.
Proof.
  induction l as [|p l IH]; intros Hk; [reflexivity|]. cbn in *.
  destruct (Nat.eqb_spec (id p) k) as [E|E]; [tauto|]. cbn. f_equal. auto.
Qed.

Lemma filter_drop_entry (pre post : list pending_request) (e : pending_request) :
  List.NoDup (map id (pre ++ e :: post)) ->
  List.filter (fun p => negb (Nat.eqb (id p) (id e))) (pre ++ e :: post)
  = (pre ++ post)%list.
Proof.
  intros Hnd. rewrite map_app in Hnd. cbn in Hnd.
  apply NoDup_remove_2 in Hnd. rewrite in_app_iff in Hnd.
  rewrite List.filter_app. cbn. rewrite Nat.eqb_refl. cbn.
  rewrite !filter_keep_all; [reflexivity| |]; tauto.
Qed.

Lemma replay_all_eval (l pre : list pending_request) (w : world)
  (outs rest : list (option response)) :
  pending_requests w = (pre ++ l)%list ->
  List.NoDup (map id (pre ++ l)) ->
  network w = (outs ++ rest)%list ->
  length outs = length l ->
  exists w', replay_all l w = (Ok tt, w') /\
    pending_requests w' = (pre ++ replay_survivors l outs)%list /\
    fetch_log w' = (fetch_log w ++ map p_url l)%list /\
    network w' = rest.
Proof.
  revert pre w outs. induction l as [|e l IH]; intros pre w outs Hp Hnd Hn Hlen.
  - destruct outs; [|discriminate]. exists w. cbn in *.
    rewrite app_nil_r in Hp. rewrite !app_nil_r. repeat split; auto.
  - destruct outs as [|o outs]; [discriminate|]. cbn in Hn, Hlen.
    injection Hlen as Hlen. cbn [replay_all].
    destruct o as [r|].
    + destruct (ok r) eqn:Hok.
      * (* the entry is replayed successfully and deleted *)
        set (w1 := set_network (outs ++ rest)%list (fetch_log w ++ [p_url e])%list w).
        set (w2 := set_outbox (List.filter (fun p => negb (Nat.eqb (id p) (id e)))
                                 (pending_requests w1)) (next_key w1) w1).
        assert (Hr : replay_one e w = (Ok tt, w2)).
        { unfold replay_one. apply try_Ok.
          erewrite bind_Ok by (apply fetch_resolved; exact Hn).
          rewrite Hok. reflexivity. }
        erewrite bind_Ok by exact Hr.
        assert (Hp2 : pending_requests w2 = (pre ++ l)%list).
        { unfold w2. cbn. rewrite Hp. apply filter_drop_entry. exact Hnd. }
        assert (Hnd2 : List.NoDup (map id (pre ++ l))).
        { rewrite map_app in *. cbn in Hnd. apply NoDup_remove_1 in Hnd. exact Hnd. }
        destruct (IH pre w2 outs Hp2 Hnd2 eq_refl Hlen) as (w' & H1 & H2 & H3 & H4).
        exists w'. split; [exact H1|]. cbn. rewrite Hok. split; [exact H2|].
        split; [|exact H4]. rewrite H3. cbn. rewrite <- app_assoc. reflexivity.
      * (* the entry stays *)
        set (w1 := set_network (outs ++ rest)%list (fetch_log w ++ [p_url e])%list w).
        assert (Hr : replay_one e w = (Ok tt, w1)).
        { unfold replay_one. apply try_Ok.
          erewrite bind_Ok by (apply fetch_resolved; exact Hn).
          rewrite Hok. reflexivity. }
        erewrite bind_Ok by exact Hr.
        assert (Hp1 : pending_requests w1 = ((pre ++ [e]) ++ l)%list).
        { unfold w1. cbn. rewrite Hp, <- app_assoc. reflexivity. }
        destruct (IH (pre ++ [e])%list w1 outs) as (w' & H1 & H2 & H3 & H4);
          [exact Hp1|rewrite <- app_assoc; exact Hnd
          |reflexivity|exact Hlen|].
        exists w'. split; [exact H1|]. cbn. rewrite Hok. split.
        { rewrite H2, <- app_assoc. reflexivity. }
        split; [|exact H4]. rewrite H3. cbn. rewrite <- app_assoc. reflexivity.
    + (* the fetch rejects; the entry stays *)
      set (w1 := set_network (outs ++ rest)%list (fetch_log w ++ [p_url e])%list w).
      assert (Hr : replay_one e w = (Ok tt, w1)).
      { unfold replay_one.
        erewrite try_Err by (erewrite bind_Err by (apply fetch_rejected; exact Hn);
                             reflexivity).
        reflexivity. }
      erewrite bind_Ok by exact Hr.
      destruct (IH (pre ++ [e])%list w1 outs) as (w' & H1 & H2 & H3 & H4);
        [unfold w1; cbn; rewrite Hp, <- app_assoc; reflexivity
        |rewrite <- app_assoc; exact Hnd|reflexivity|exact Hlen|].
      exists w'. split; [exact H1|]. cbn. split.
      { rewrite H2, <- app_assoc. reflexivity. }
      split; [|exact H4]. rewrite H3. cbn. rewrite <- app_assoc. reflexivity.
Qed.

(** C6 (amended). Replay re-sends every Outbox entry in key (enqueue)
    order, one after the other, whatever happened to the previous ones; an
    entry is deleted exactly when its re-sent request resolves with an ok
    (2xx) response.  Afterwards the Outbox holds exactly the entries whose
    replay did not get a 2xx, in their order; in particular, when every
    replay gets a 2xx the Outbox is empty. *)
Theorem syncPendingRequests_contract (w : world) (outs rest : list (option response)) :
  List.NoDup (map id (pending_requests w)) ->
  network w = (outs ++ rest)%list ->
  length outs = length (pending_requests w) ->
  exists w', syncPendingRequests w = (Ok tt, w') /\
    pending_requests w' = replay_survivors (pending_requests w) outs /\
    fetch_log w' = (fetch_log w ++ map p_url (pending_requests w))%list /\
    (Forall (fun o => exists r, o = Some r /\ ok r = true) outs ->
     pending_requests w' = []).
Proof.
  intros Hnd Hn Hlen.
  destruct (replay_all_eval (pending_requests w) [] w outs rest)
    as (w' & H1 & H2 & H3 & _); try done.
  exists w'. split.
  { unfold syncPendingRequests. apply try_Ok.
    erewrite bind_Ok by reflexivity. exact H1. }
  split; [exact H2|]. split; [exact H3|].
  intros Hall. rewrite H2. clear -Hall Hlen.
  revert outs Hall Hlen. induction (pending_requests w) as [|e l IH];
    intros outs Hall Hlen; [reflexivity|].
  destruct outs as [|o outs]; [discriminate|].
  inversion Hall as [|? ? (r & -> & Hok) Hall']; subst.
  cbn. rewrite Hok. apply IH; [exact Hall'|now injection Hlen].
Qed.

Lemma syncPendingRequests_contract_witness :
  List.NoDup (map id (pending_requests
    (world_outbox [pending_sample 1 "/api/mood"; pending_sample 2 "/api/journal"]
                  [Some fresh_ok; None]))) /\
  network (world_outbox [pending_sample 1 "/api/mood"; pending_sample 2 "/api/journal"]
                        [Some fresh_ok; None])
  = ([Some fresh_ok; None] ++ [])%list /\
  length [Some fresh_ok; None] =
  length (pending_requests
    (world_outbox [pending_sample 1 "/api/mood"; pending_sample 2 "/api/journal"]
                  [Some fresh_ok; None])) /\
  exists w', syncPendingRequests
    (world_outbox [pending_sample 1 "/api/mood"; pending_sample 2 "/api/journal"]
                  [Some fresh_ok; None]) = (Ok tt, w') /\
    pending_requests w' = replay_survivors
      (pending_requests
        (world_outbox [pending_sample 1 "/api/mood"; pending_sample 2 "/api/journal"]
                      [Some fresh_ok; None])) [Some fresh_ok; None] /\
    fetch_log w' =
      (fetch_log (world_outbox [pending_sample 1 "/api/mood"; pending_sample 2 "/api/journal"]
                               [Some fresh_ok; None]) ++
       map p_url (pending_requests
         (world_outbox [pending_sample 1 "/api/mood"; pending_sample 2 "/api/journal"]
                       [Some fresh_ok; None])))%list /\
    (Forall (fun o => exists r, o = Some r /\ ok r = true) [Some fresh_ok; None] ->
     pending_requests w' = []).
Proof.
  assert (Hnd : List.NoDup (map id (pending_requests
    (world_outbox [pending_sample 1 "/api/mood"; pending_sample 2 "/api/journal"]
                  [Some fresh_ok; None])))).
  { cbn. constructor; [cbn; intros [H|[]]; discriminate H|].
    constructor; [intros []|constructor]. }
  split; [exact Hnd|]. split; [reflexivity|]. split; [reflexivity|].
  apply (syncPendingRequests_contract _ [Some fresh_ok; None] []);
    [exact Hnd|reflexivity|reflexivity].
Defined.

(** C6 counterexample: the replay of the first of two entries fails, the
    second succeeds; the second is deleted, so entries 1..2 are not all
    still queued. *)
Lemma sync_continues_after_failure :
  pending_requests (snd (syncPendingRequests
    (world_outbox [pending_sample 1 "/api/mood"; pending_sample 2 "/api/journal"]
                  [None; Some fresh_ok])))
  = [pending_sample 1 "/api/mood"].
Proof. vm_compute. reflexivity. Qed.

(** ** Deleting partitions *)

Lemma set_caches_twice (a b : gmap string (gmap string response)) (w : world) :
  set_caches a (set_caches b w) = set_caches a w.
Proof. by destruct w. Qed.

Lemma in_caches_keys (w : world) (n : string) (p : gmap string response) :
  caches w !! n = Some p -> In n (caches_keys w).
Proof.
  intros H. unfold caches_keys. apply (in_map_iff fst). exists (n, p).
  split; [reflexivity|]. apply list_elem_of_In, elem_of_map_to_list. exact H.
Qed.

Lemma delete_old_eval (l : list string) (w : world) :
  delete_old l w =
  (Ok tt, set_caches (fold_left (fun c k => if expected_cache k then c else delete k c)
                                l (caches w)) w).
Proof.
  revert w. induction l as [|k l IH]; intros w.
  - cbn. by destruct w.
  - cbn [delete_old fold_left]. destruct (expected_cache k).
    + erewrite bind_Ok by reflexivity. apply IH.
    + erewrite bind_Ok by reflexivity. rewrite IH. cbn.
      now rewrite set_caches_twice.
Qed.

Lemma fold_delete_old_lookup (l : list string)
  (c : gmap string (gmap string response)) (n : string) :
  fold_left (fun c k => if expected_cache k then c else delete k c) l c !! n =
  if (existsb (String.eqb n) l && negb (expected_cache n))%bool then None else c !! n.
Proof.
  revert c. induction l as [|k l IH]; intros c; cbn.
  - reflexivity.
  - rewrite IH. destruct (String.eqb_spec n k) as [->|Hne]; cbn.
    + destruct (expected_cache k); cbn; [by destruct (existsb _ l)|].
      rewrite lookup_delete_eq. by destruct (existsb _ l).
    + destruct (existsb (String.eqb n) l && negb (expected_cache n))%bool; [done|].
      destruct (expected_cache k); [done|]. by rewrite lookup_delete_ne.
Qed.

Lemma delete_caches_eval (l : list string) (w : world) :
  delete_caches l w =
  (Ok tt, set_caches (fold_left (fun c k => delete k c) l (caches w)) w).
Proof.
  revert w. induction l as [|k l IH]; intros w.
  - cbn. by destruct w.
  - cbn [delete_caches fold_left]. erewrite bind_Ok by reflexivity.
    rewrite IH. cbn. now rewrite set_caches_twice.
Qed.

Lemma fold_delete_lookup (l : list string)
  (c : gmap string (gmap string response)) (n : string) :
  fold_left (fun c k => delete k c) l c !! n =
  if existsb (String.eqb n) l then None else c !! n.
Proof.
  revert c. induction l as [|k l IH]; intros c; cbn; [reflexivity|].
  rewrite IH. destruct (String.eqb_spec n k) as [->|Hne]; cbn.
  - rewrite lookup_delete_eq. by destruct (existsb _ l).
  - by rewrite lookup_delete_ne.
Qed.

Lemma existsb_in (n : string) (l : list string) :
  In n l -> existsb (String.eqb n) l = true.
Proof.
  intros H. apply existsb_exists. exists n. split; [exact H|].
  apply String.eqb_refl.
Qed.

(** ** Clear-all command *)

Lemma clearAllCaches_eval (w : world) :
  clearAllCaches w = (Ok tt, set_caches ∅ w).
Proof.
  unfold clearAllCaches. apply try_Ok.
  erewrite bind_Ok by reflexivity. rewrite delete_caches_eval.
  f_equal. f_equal. apply map_eq. intros n. rewrite fold_delete_lookup, lookup_empty.
  destruct (caches w !! n) as [p|] eqn:E.
  - cbn. rewrite (existsb_in n (caches_keys w)) by (eapply in_caches_keys; exact E).
    reflexivity.
  - by destruct (existsb _ _).
Qed.

(** C9 (amended). Once the CLEAR_CACHE command has run, every cache
    partition is gone, while the Outbox and the other IndexedDB stores are
    left exactly as they were: the command clears the partitions only. *)
Theorem clear_cache_command (w : world) :
  message_event (Some (command "CLEAR_CACHE")) w = (Ok tt, set_caches ∅ w) /\
  caches (set_caches ∅ w) = ∅ /\
  pending_requests (set_caches ∅ w) = pending_requests w /\
  mood_data (set_caches ∅ w) = mood_data w.
Proof.
  split; [|repeat split]. cbn. apply clearAllCaches_eval.
Qed.

(** C9 counterexample: with one queued write, the Outbox still holds it
    after CLEAR_CACHE. *)
Lemma clear_cache_keeps_outbox :
  pending_requests (snd (message_event (Some (command "CLEAR_CACHE"))
    (world_outbox [pending_sample 1 "/api/mood"] [])))
  = [pending_sample 1 "/api/mood"].
Proof. vm_compute. reflexivity. Qed.

(** ** Crisis support check *)

Lemma recentLowMoods_spec (t : Z) (l : list mood) (m : mood) :
  In m (recentLowMoods t l) <->
  In m l /\ (t - 3 * DAY_MS <= mood_time m)%Z /\ (mood_value m <= 2)%Z.
Proof.
  unfold recentLowMoods. rewrite filter_In, andb_true_iff, !Z.leb_le. tauto.
Qed.

(** C8 (amended). On each crisis-check tick the worker keeps the mood
    records whose date is at or after the instant 72 hours before now (a
    rolling window, not calendar days) and whose value is at most 2, and
    shows the interaction-required "MindChat Support" notification exactly
    when at least 3 records are kept.  Records 24, 48 and 72 hours old with
    values 1, 2, 2 trigger it; records with values 4 and 5 do not. *)
Theorem crisis_check_contract :
  (forall w : world,
     checkCrisisSupport w =
     (Ok tt, set_shown (shown w ++
               if Nat.leb 3 (length (recentLowMoods (now w) (mood_data w)))
               then [crisis_notification] else [])%list w)) /\
  (forall (t : Z) (l : list mood) (m : mood),
     In m (recentLowMoods t l) <->
     In m l /\ (t - 3 * DAY_MS <= mood_time m)%Z /\ (mood_value m <= 2)%Z) /\
  n_requireInteraction crisis_notification = true /\
  (forall t : Z,
     shown (snd (checkCrisisSupport (world_moods t
       [mkMood (t - DAY_MS) 1; mkMood (t - 2 * DAY_MS) 2; mkMood (t - 3 * DAY_MS) 2])))
     = [crisis_notification]) /\
  (forall t : Z,
     shown (snd (checkCrisisSupport (world_moods t
       [mkMood (t - DAY_MS) 4; mkMood (t - 2 * DAY_MS) 5]))) = []).
Proof.
  assert (Hrun : forall w : world,
     checkCrisisSupport w =
     (Ok tt, set_shown (shown w ++
               if Nat.leb 3 (length (recentLowMoods (now w) (mood_data w)))
               then [crisis_notification] else [])%list w)).
  { intros w. unfold checkCrisisSupport. apply try_Ok.
    erewrite bind_Ok by reflexivity. erewrite bind_Ok by reflexivity.
    destruct (Nat.leb 3 _); [reflexivity|]. cbn. rewrite app_nil_r. by destruct w. }
  split; [exact Hrun|]. split; [exact recentLowMoods_spec|].
  split; [reflexivity|]. split.
  - intros t. rewrite Hrun. cbn -[DAY_MS].
    assert (E1 : Z.leb (t - 3 * DAY_MS) (t - DAY_MS) = true) by (apply Z.leb_le; unfold DAY_MS; lia).
    assert (E2 : Z.leb (t - 3 * DAY_MS) (t - 2 * DAY_MS) = true) by (apply Z.leb_le; unfold DAY_MS; lia).
    assert (E3 : Z.leb (t - 3 * DAY_MS) (t - 3 * DAY_MS) = true) by (apply Z.leb_le; lia).
    rewrite E1, E2, E3. reflexivity.
  - intros t. rewrite Hrun. cbn -[DAY_MS]. rewrite !andb_false_r. reflexivity.
Qed.

(** C8 counterexample: records dated the three calendar days before
    2026-10-17 with values 1, 2, 2; at noon the window starts at
    2026-10-14T12:00Z, so the record dated 2026-10-14 (UTC midnight) is
    dropped and no notification is shown. *)
Lemma crisis_calendar_days_not_fired :
  shown (snd (checkCrisisSupport (world_moods noon_2026_10_17
    [mkMood date_2026_10_16 1; mkMood date_2026_10_15 2; mkMood date_2026_10_14 2])))
  = [].
Proof. vm_compute. reflexivity. Qed.

(* ================================================================== *)
(** * Further properties of the worker *)

(** ** Frame conditions *)

Section Steps.
Context (R : world -> world -> Prop) `{!PreOrder R}.

Lemma steps_ret {A} (a : A) : steps R (ret a).
Proof. intros w. cbn. reflexivity. Qed.

Lemma steps_throw {A} (e : exn) : steps R (@throw A e).
Proof. intros w. cbn. reflexivity. Qed.

Lemma steps_gets {A} (f : world -> A) : steps R (gets f).
Proof. intros w. cbn. reflexivity. Qed.

Lemma steps_bind {A B} (m : M A) (k : A -> M B) :
  steps R m -> (forall a, steps R (k a)) -> steps R (bind m k).
Proof.
  intros Hm Hk w. unfold bind. specialize (Hm w).
  destruct (m w) as [[a|e] w1]; cbn in *; [|exact Hm].
  etransitivity; [exact Hm|apply Hk].
Qed.

Lemma steps_try {A} (m : M A) (h : exn -> M A) :
  steps R m -> (forall e, steps R (h e)) -> steps R (try_catch m h).
Proof.
  intros Hm Hh w. unfold try_catch. specialize (Hm w).
  destruct (m w) as [[a|e] w1]; cbn in *; [exact Hm|].
  etransitivity; [exact Hm|apply Hh].
Qed.

End Steps.

Lemma steps_weaken (R R' : world -> world -> Prop) {A} (m : M A) :
  (forall w w', R w w' -> R' w w') -> steps R m -> steps R' m.
Proof. intros HR Hm w. apply HR, Hm. Qed.

Lemma db_same_preorder : PreOrder db_same.
Proof.
  split.
  - intros w. repeat split.
  - intros w1 w2 w3 (H1 & H2 & H3) (H4 & H5 & H6). repeat split; congruence.
Qed.
#[local] Existing Instance db_same_preorder.

Lemma outbox_kept_preorder : PreOrder outbox_kept.
Proof. split; unfold outbox_kept; [intros w; auto|intros w1 w2 w3; auto]. Qed.
#[local] Existing Instance outbox_kept_preorder.

Create HintDb frames.

(** Walks a computation built with [bind], [try_catch] and branching,
    leaving its primitive operations to the [frames] database. *)
Ltac steps_walk :=
  repeat match goal with
  | |- steps _ (bind _ _) => apply steps_bind; [exact _| |intros ?]
  | |- steps _ (try_catch _ _) => apply steps_try; [exact _| |intros ?]
  | |- steps _ (ret _) => apply steps_ret; exact _
  | |- steps _ (throw _) => apply steps_throw; exact _
  | |- steps _ (gets _) => apply steps_gets; exact _
  | |- steps _ (if ?b then _ else _) => destruct b
  | |- steps _ (match ?x with _ => _ end) => destruct x
  | |- _ => solve [eauto with frames]
  end.

Lemma db_fetch (u : string) : steps db_same (fetch u).
Proof. intros w. unfold fetch. destruct (network w) as [|[r|] rest]; repeat split. Qed.

Lemma db_caches_open (n : string) : steps db_same (caches_open n).
Proof. intros w. cbn. destruct (caches w !! n); repeat split. Qed.

Lemma db_cache_match (n u : string) : steps db_same (cache_match n u).
Proof. intros w. repeat split. Qed.

Lemma db_cache_put (n u : string) (r : response) : steps db_same (cache_put n u r).
Proof. intros w. rewrite cache_put_run. destruct (put_accepts _ r); repeat split. Qed.

Lemma db_caches_delete (n : string) : steps db_same (caches_delete n).
Proof. intros w. repeat split. Qed.

Lemma db_spawn (j : job) : steps db_same (spawn j).
Proof. intros w. repeat split. Qed.

Lemma db_fetch_request (req : request) : steps db_same (fetch_request req).
Proof.
  unfold fetch_request. destruct (req_body req), (body_used req);
    first [apply db_fetch | apply steps_throw; exact _].
Qed.

#[local] Hint Resolve db_fetch db_caches_open db_cache_match db_cache_put
  db_caches_delete db_spawn db_fetch_request : frames.

Lemma db_put_or_null (n u : string) (r : response) : steps db_same (put_or_null n u r).
Proof. unfold put_or_null. steps_walk. Qed.
#[local] Hint Resolve db_put_or_null : frames.

Lemma db_getFallbackResponse (req : request) : steps db_same (getFallbackResponse req).
Proof. unfold getFallbackResponse. steps_walk. Qed.

Lemma db_handleGetRequest (req : request) : steps db_same (handleGetRequest req).
Proof.
  unfold handleGetRequest, cacheFirstStrategy, networkFirstStrategy,
    staleWhileRevalidateStrategy, getFallbackResponse.
  steps_walk.
Qed.

(** ** Counting network fetches *)

Lemma log_same_preorder : PreOrder log_same.
Proof. split; unfold log_same; [intros w; reflexivity|intros w1 w2 w3 H1 H2; congruence]. Qed.
#[local] Existing Instance log_same_preorder.

Lemma log_caches_open (n : string) : steps log_same (caches_open n).
Proof. intros w. cbn. destruct (caches w !! n); reflexivity. Qed.
Lemma log_cache_match (n u : string) : steps log_same (cache_match n u).
Proof. intros w. reflexivity. Qed.
Lemma log_cache_put (n u : string) (r : response) : steps log_same (cache_put n u r).
Proof. intros w. rewrite cache_put_run. destruct (put_accepts _ r); reflexivity. Qed.
Lemma log_spawn (j : job) : steps log_same (spawn j).
Proof. intros w. reflexivity. Qed.
#[local] Hint Resolve log_caches_open log_cache_match log_cache_put log_spawn : frames.

Lemma log_put_or_null (n u : string) (r : response) : steps log_same (put_or_null n u r).
Proof. unfold put_or_null. steps_walk. Qed.
Lemma log_getFallbackResponse (req : request) : steps log_same (getFallbackResponse req).
Proof. unfold getFallbackResponse. steps_walk. Qed.
#[local] Hint Resolve log_put_or_null log_getFallbackResponse : frames.

Lemma fam_zero {A} (n : nat) (m : M A) : steps log_same m -> fetches_at_most n m.
Proof. intros H w. unfold log_same in H. rewrite (H w). lia. Qed.

Lemma fam_fetch (n : nat) (u : string) : 1 <= n -> fetches_at_most n (fetch u).
Proof.
  intros Hn w. unfold fetch. destruct (network w) as [|[r|] rest]; cbn;
    rewrite length_app; cbn; lia.
Qed.

Lemma fam_fetch_request (n : nat) (req : request) :
  1 <= n -> fetches_at_most n (fetch_request req).
Proof.
  intros Hn. unfold fetch_request. destruct (req_body req), (body_used req);
    first [apply fam_fetch; exact Hn | apply fam_zero; apply steps_throw; exact _].
Qed.

Lemma fam_bind {A B} (a n : nat) (m : M A) (k : A -> M B) :
  fetches_at_most a m -> (forall x, fetches_at_most (n - a) (k x)) -> a <= n ->
  fetches_at_most n (bind m k).
Proof.
  intros Hm Hk Ha w. unfold bind. specialize (Hm w).
  destruct (m w) as [[x|e] w1]; cbn in *; [|lia].
  specialize (Hk x w1). lia.
Qed.

Lemma fam_try {A} (a n : nat) (m : M A) (h : exn -> M A) :
  fetches_at_most a m -> (forall e, fetches_at_most (n - a) (h e)) -> a <= n ->
  fetches_at_most n (try_catch m h).
Proof.
  intros Hm Hh Ha w. unfold try_catch. specialize (Hm w).
  destruct (m w) as [[x|e] w1]; cbn in *; [lia|].
  specialize (Hh e w1). lia.
Qed.

(** Splits off a first step that issues no fetch, or failing that one that
    issues at most one. *)
Ltac fam_walk :=
  repeat match goal with
  | |- fetches_at_most _ (bind _ _) =>
      first [ apply (fam_bind 0); [apply fam_zero; solve [steps_walk]|intros ?|lia]
            | apply (fam_bind 1); [|intros ?|lia] ]
  | |- fetches_at_most _ (try_catch _ _) =>
      first [ apply (fam_try 0); [apply fam_zero; solve [steps_walk]|intros ?|lia]
            | apply (fam_try 1); [|intros ?|lia] ]
  | |- fetches_at_most _ (if ?b then _ else _) => destruct b
  | |- fetches_at_most _ (match ?x with _ => _ end) => destruct x
  | |- fetches_at_most _ (fetch _) => apply fam_fetch; lia
  | |- fetches_at_most _ (fetch_request _) => apply fam_fetch_request; lia
  | |- fetches_at_most _ _ => apply fam_zero; solve [steps_walk]
  end.

(** ** Fallback responses *)

Lemma fallback_html_eval (req : request) (w : world) :
  accept_includes req "text/html" = true ->
  getFallbackResponse req w =
  (Ok (match stored w STATIC_CACHE "/" with Some s => s | None => html_offline end),
   open_world STATIC_CACHE w).
Proof.
  intros H. unfold getFallbackResponse. rewrite H.
  erewrite bind_Ok by apply caches_open_eval.
  erewrite bind_Ok by apply cache_match_eval.
  rewrite stored_open. by destruct (stored w STATIC_CACHE "/").
Qed.

Lemma fallback_api_eval (req : request) (w : world) :
  accept_includes req "text/html" = false ->
  startsWith (req_path req) "/api/" = true ->
  getFallbackResponse req w = (Ok api_offline, w).
Proof. intros H1 H2. unfold getFallbackResponse. now rewrite H1, H2. Qed.

Lemma fallback_ok (req : request) (w : world) :
  exists r, getFallbackResponse req w =
    (Ok r, if accept_includes req "text/html" then open_world STATIC_CACHE w else w).
Proof.
  destruct (accept_includes req "text/html") eqn:H.
  - rewrite fallback_html_eval by exact H. eauto.
  - unfold getFallbackResponse. rewrite H.
    destruct (startsWith _ _), (accept_includes req "image/"); eauto.
Qed.

(** X1. The fallback never fails and changes no stored snapshot; it
    answers with status 503, the cached app shell, or the SVG placeholder;
    a page navigation gets the app shell when one is stored and the plain
    503 page otherwise, and an API request not accepting HTML gets the
    JSON offline envelope. *)
Theorem getFallbackResponse_offline_answers (req : request) (w : world) :
  exists r,
    getFallbackResponse req w =
      (Ok r, if accept_includes req "text/html" then open_world STATIC_CACHE w else w) /\
    (forall n u, stored (snd (getFallbackResponse req w)) n u = stored w n u) /\
    (status r = 503%Z \/ stored w STATIC_CACHE "/" = Some r \/
     r = mkResponse 200 [("content-type", "image/svg+xml")] offline_svg) /\
    (accept_includes req "text/html" = true ->
     r = match stored w STATIC_CACHE "/" with Some s => s | None => html_offline end) /\
    (accept_includes req "text/html" = false ->
     startsWith (req_path req) "/api/" = true -> r = api_offline).
Proof.
  destruct (accept_includes req "text/html") eqn:Hh.
  - rewrite fallback_html_eval by exact Hh. eexists. split; [reflexivity|].
    split; [intros n u; apply stored_open|].
    split; [|split; [reflexivity|discriminate]].
    destruct (stored w STATIC_CACHE "/"); [right; left; reflexivity|left; reflexivity].
  - unfold getFallbackResponse. rewrite Hh.
    destruct (startsWith (req_path req) "/api/") eqn:Ha.
    + eexists. split; [reflexivity|]. split; [reflexivity|].
      split; [left; reflexivity|]. split; [discriminate|reflexivity].
    + destruct (accept_includes req "image/").
      * eexists. split; [reflexivity|]. split; [reflexivity|].
        split; [right; right; reflexivity|]. split; [discriminate|discriminate].
      * eexists. split; [reflexivity|]. split; [reflexivity|].
        split; [left; reflexivity|]. split; [discriminate|discriminate].
Qed.

(** X2. A GET handled by the worker always gets a response: every failure
    of the strategies ends in the fallback, which does not fail. *)
Theorem handleGetRequest_always_responds (req : request) (w : world) :
  exists r w', handleGetRequest req w = (Ok r, w').
Proof.
  unfold handleGetRequest, try_catch.
  match goal with |- context [match ?m w with _ => _ end] =>
    destruct (m w) as [[r|e] w1] end; [eauto|].
  destruct (fallback_ok req w1) as [r H]. rewrite H. eauto.
Qed.

(** X3. Handling a GET issues at most one network fetch. *)
Theorem handleGetRequest_at_most_one_fetch (req : request) :
  fetches_at_most 1 (handleGetRequest req).
Proof.
  unfold handleGetRequest, cacheFirstStrategy, networkFirstStrategy,
    staleWhileRevalidateStrategy.
  fam_walk.
  Unshelve.
Qed.

(** X5. Offline, a page navigation (a request accepting text/html that is
    not a static asset, an audio file or an API path) with no snapshot of
    its own is answered with the cached app shell "/", or with the plain
    503 page when the shell is not cached either. *)
Theorem offline_navigation_gets_shell (req : request) (w : world)
  (rest : list (option response)) :
  static_match (req_path req) = false ->
  includes (req_path req) "/audio/" = false ->
  startsWith (req_path req) "/api/" = false ->
  accept_includes req "text/html" = true ->
  body_used req = false ->
  network w = None :: rest ->
  stored w DYNAMIC_CACHE (req_url req) = None ->
  fst (handleGetRequest req w) =
  Ok (match stored w STATIC_CACHE "/" with Some s => s | None => html_offline end).
Proof.
  intros Hs Ha Hp Hh Hb Hn Hd. unfold handleGetRequest.
  change (existsb _ STATIC_ASSETS) with (static_match (req_path req)).
  rewrite Hs, Ha, Hp.
  erewrite try_Err by (rewrite (swr_miss w req DYNAMIC_CACHE None rest Hb Hd Hn);
                       reflexivity).
  rewrite fallback_html_eval by exact Hh. cbn [fst].
  rewrite stored_set_network, stored_open. reflexivity.
Qed.

(** X6. Offline, an API GET that does not accept HTML and has no snapshot
    of its own is answered with the JSON offline envelope and status 503. *)
Theorem offline_api_get_gets_envelope (req : request) (w : world)
  (rest : list (option response)) :
  static_match (req_path req) = false ->
  includes (req_path req) "/audio/" = false ->
  startsWith (req_path req) "/api/" = true ->
  accept_includes req "text/html" = false ->
  body_used req = false ->
  network w = None :: rest ->
  stored w DYNAMIC_CACHE (req_url req) = None ->
  fst (handleGetRequest req w) = Ok api_offline.
Proof.
  intros Hs Ha Hp Hh Hb Hn Hd. unfold handleGetRequest.
  change (existsb _ STATIC_ASSETS) with (static_match (req_path req)).
  rewrite Hs, Ha, Hp.
  erewrite try_Err by (rewrite (networkFirst_rejected w req DYNAMIC_CACHE rest Hb Hn), Hd;
                       reflexivity).
  rewrite fallback_api_eval by assumption. reflexivity.
Qed.

(** ** Adding to a partition, and installation *)

Lemma cache_add_eval (n u : string) (w : world) (o : option response)
  (rest : list (option response)) :
  network w = o :: rest ->
  snd (cache_add n u w) = add_world n u o (set_network rest (fetch_log w ++ [u])%list w) /\
  (fst (cache_add n u w) = Ok tt <->
   (addAll_accepts o && negb (quota_exceeded w))%bool = true).
Proof.
  intros Hn. unfold cache_add, add_world. destruct o as [r|].
  - erewrite bind_Ok by (apply fetch_resolved; exact Hn).
    unfold addAll_accepts. destruct (ok r); cbn [andb].
    + rewrite cache_put_run, quota_set_network. unfold put_accepts.
      destruct (Z.eqb (status r) 206), (vary_star r), (quota_exceeded w); cbn;
        (split; [reflexivity|split; intros; first [reflexivity|discriminate]]).
    + split; [reflexivity|]. split; discriminate.
  - erewrite bind_Err by (apply fetch_rejected; exact Hn). cbn.
    split; [reflexivity|]. split; discriminate.
Qed.

Lemma stored_add_world (n u m v : string) (o : option response) (w : world) :
  stored (add_world n u o w) m v =
  if (addAll_accepts o && negb (quota_exceeded w) && String.eqb m n && String.eqb v u)%bool
  then o else stored w m v.
Proof.
  unfold add_world. destruct o as [r|]; [|reflexivity].
  destruct (addAll_accepts (Some r) && negb (quota_exceeded w))%bool; cbn; [|reflexivity].
  rewrite stored_put.
  destruct (String.eqb_spec m n), (String.eqb_spec v u); cbn;
    destruct (decide _); intuition congruence.
Qed.

Lemma add_world_fields (n u : string) (o : option response) (w : world) :
  exists c, add_world n u o w = set_caches c w.
Proof.
  unfold add_world. destruct o as [r|]; [destruct (addAll_accepts _ && _)%bool|];
    eauto; exists (caches w); by destruct w.
Qed.

Lemma open_world_fields' (n : string) (w : world) :
  exists c, open_world n w = set_caches c w.
Proof. unfold open_world. destruct (caches w !! n); eauto. exists (caches w). by destruct w. Qed.

(** X7. The CACHE_AUDIO command never fails: it issues one fetch, stores
    the audio file when the response is ok, not partial and without a
    [Vary] field value "*" and the storage quota is not used up, and
    otherwise leaves every stored snapshot as it was. *)
Theorem cacheAudioFile_outcome (url : string) (w : world) (o : option response)
  (rest : list (option response)) :
  network w = o :: rest ->
  exists w', cacheAudioFile url w = (Ok tt, w') /\
    fetch_log w' = (fetch_log w ++ [url])%list /\ network w' = rest /\
    (forall n u, stored w' n u =
       if (addAll_accepts o && negb (quota_exceeded w) && String.eqb n AUDIO_CACHE
           && String.eqb u url)%bool
       then o else stored w n u).
Proof.
  intros Hn. set (w0 := open_world AUDIO_CACHE w).
  destruct (open_world_fields AUDIO_CACHE w) as (Hn0 & Hl0 & _).
  fold w0 in Hn0, Hl0. rewrite <- Hn0 in Hn.
  destruct (cache_add_eval AUDIO_CACHE url w0 o rest Hn) as [Hs Hf].
  destruct (cache_add AUDIO_CACHE url w0) as [res w1] eqn:E. cbn in Hs, Hf.
  exists w1. split.
  - unfold cacheAudioFile, try_catch.
    erewrite bind_Ok by apply caches_open_eval. fold w0. rewrite E.
    destruct res as [[]|e]; reflexivity.
  - destruct (add_world_fields AUDIO_CACHE url o
                (set_network rest (fetch_log w0 ++ [url])%list w0)) as [c Hc].
    rewrite Hs. split; [rewrite Hc; cbn; rewrite Hl0; reflexivity|].
    split; [rewrite Hc; reflexivity|].
    intros n u. rewrite stored_add_world, stored_set_network, quota_set_network.
    unfold w0. rewrite stored_open, open_world_quota. reflexivity.
Qed.

Lemma set_caches_same (w : world) : set_caches (caches w) w = w.
Proof. by destruct w. Qed.

Lemma set_network_twice (n1 n2 : list (option response)) (l1 l2 : list string)
  (w : world) :
  set_network n1 l1 (set_network n2 l2 w) = set_network n1 l1 w.
Proof. by destruct w. Qed.

Lemma settled_eval {A} (m : M A) (w : world) :
  settled m w = (Ok (fst (m w)), snd (m w)).
Proof. unfold settled, try_catch, bind. by destruct (m w) as [[a|e] w1]. Qed.

Lemma fetch_each_eval (urls : list string) (outs rest : list (option response))
  (w : world) :
  network w = (outs ++ rest)%list -> length outs = length urls ->
  fetch_each urls w = (Ok outs, set_network rest (fetch_log w ++ urls)%list w).
Proof.
  revert outs w. induction urls as [|u us IH]; intros outs w Hn Hl.
  - destruct outs; [|discriminate]. cbn in *. rewrite app_nil_r, <- Hn.
    by destruct w.
  - destruct outs as [|o outs]; [discriminate|]. injection Hl as Hl. cbn [fetch_each].
    assert (Hf : try_catch (let* r := fetch u in ret (Some r)) (fun _ => ret None) w
                 = (Ok o, set_network (outs ++ rest)%list (fetch_log w ++ [u])%list w)).
    { destruct o as [r|].
      - apply try_Ok. erewrite bind_Ok by (apply fetch_resolved; exact Hn). reflexivity.
      - erewrite try_Err by (erewrite bind_Err by (apply fetch_rejected; exact Hn);
                             reflexivity). reflexivity. }
    erewrite bind_Ok by exact Hf.
    erewrite bind_Ok by (apply IH; [reflexivity|exact Hl]).
    cbn. rewrite set_network_twice, <- app_assoc. reflexivity.
Qed.

Lemma put_all_eval (n : string) (entries : list (string * option response))
  (w : world) :
  forallb addAll_accepts (map snd entries) = true -> quota_exceeded w = false ->
  exists c, put_all n entries w = (Ok tt, set_caches c w) /\
    (forall m v, m <> n \/ ~ In v (map fst entries) ->
                 stored (set_caches c w) m v = stored w m v) /\
    (List.NoDup (map fst entries) ->
     forall u r, In (u, Some r) entries -> stored (set_caches c w) n u = Some r).
Proof.
  revert w. induction entries as [|[u [r|]] rest IH]; intros w Ha Hq.
  - exists (caches w). rewrite set_caches_same. split; [reflexivity|].
    split; [reflexivity|]. intros _ u r [].
  - cbn in Ha. apply andb_true_iff in Ha as [Hr Ha].
    assert (Hput : put_accepts (quota_exceeded w) r = true).
    { unfold put_accepts. rewrite Hq. cbn in Hr.
      destruct (ok r), (Z.eqb (status r) 206), (vary_star r); cbn in *; congruence. }
    destruct (IH (put_world n u r w) Ha Hq) as (c & Hrun & Hkeep & Hnew).
    exists c. split.
    { cbn [put_all]. erewrite bind_Ok by (apply cache_put_eval; exact Hput).
      rewrite Hrun. unfold put_world. rewrite set_caches_twice. reflexivity. }
    assert (Hst : forall m v, stored (set_caches c w) m v
                              = stored (set_caches c (put_world n u r w)) m v)
      by reflexivity.
    split.
    + intros m v Hmv. rewrite Hst, Hkeep.
      * rewrite stored_put. destruct (decide _) as [[-> ->]|]; [|reflexivity].
        cbn in Hmv. tauto.
      * cbn in Hmv. tauto.
    + intros Hnd u' r' Hin. rewrite Hst. cbn in Hnd. inversion Hnd as [|? ? Hu Hnd'].
      destruct Hin as [Heq|Hin].
      * injection Heq as <- <-. rewrite Hkeep by (right; exact Hu).
        rewrite stored_put. destruct (decide _); tauto.
      * exact (Hnew Hnd' u' r' Hin).
  - cbn in Ha. discriminate.
Qed.

Lemma combine_static_assets (outs : list (option response)) :
  length outs = length STATIC_ASSETS ->
  map fst (combine STATIC_ASSETS outs) = STATIC_ASSETS /\
  map snd (combine STATIC_ASSETS outs) = outs.
Proof.
  intros Hl. do 5 (destruct outs as [|? outs]; [discriminate|]).
  destruct outs; [|discriminate]. split; reflexivity.
Qed.

Lemma static_assets_nodup : List.NoDup STATIC_ASSETS.
Proof. repeat constructor; cbn; intuition discriminate. Qed.

(** The static branch of the installation, up to its [cache.addAll]. *)
Lemma install_static_eval (w : world) (outs : list (option response))
  (o : option response) (rest : list (option response)) :
  network w = (outs ++ o :: rest)%list -> length outs = length STATIC_ASSETS ->
  let w1 := set_network (o :: rest) (fetch_log w ++ STATIC_ASSETS)%list
              (open_world STATIC_CACHE w) in
  (forallb addAll_accepts outs = true -> quota_exceeded w = false ->
   exists c, (caches_open STATIC_CACHE ;; cache_addAll STATIC_CACHE STATIC_ASSETS) w
             = (Ok tt, set_caches c w1) /\
     (forall m v, m <> STATIC_CACHE -> stored (set_caches c w1) m v = stored w m v) /\
     (forall u r, In (u, Some r) (combine STATIC_ASSETS outs) ->
                  stored (set_caches c w1) STATIC_CACHE u = Some r)) /\
  (forallb addAll_accepts outs = false ->
   (caches_open STATIC_CACHE ;; cache_addAll STATIC_CACHE STATIC_ASSETS) w
   = (Err (TypeError "Request failed"), w1)).
Proof.
  intros Hn Hl w1.
  destruct (open_world_fields STATIC_CACHE w) as (Hn0 & Hl0 & _).
  assert (Hfe : fetch_each STATIC_ASSETS (open_world STATIC_CACHE w) = (Ok outs, w1)).
  { unfold w1. rewrite <- Hl0. apply fetch_each_eval; [rewrite Hn0; exact Hn|exact Hl]. }
  destruct (combine_static_assets outs Hl) as [Hfst Hsnd].
  split.
  - intros Hall Hq.
    destruct (put_all_eval STATIC_CACHE (combine STATIC_ASSETS outs) w1)
      as (c & Hput & Hkeep & Hnew);
      [rewrite Hsnd; exact Hall|unfold w1; rewrite quota_set_network, open_world_quota; exact Hq|].
    exists c. split.
    + erewrite bind_Ok by apply caches_open_eval. unfold cache_addAll.
      erewrite bind_Ok by exact Hfe. rewrite Hall. exact Hput.
    + split.
      * intros m v Hm. rewrite Hkeep by (left; exact Hm). unfold w1.
        rewrite stored_set_network, stored_open. reflexivity.
      * apply Hnew. rewrite Hfst. exact static_assets_nodup.
  - intros Hall. erewrite bind_Ok by apply caches_open_eval. unfold cache_addAll.
    erewrite bind_Ok by exact Hfe. rewrite Hall. reflexivity.
Qed.

(** The audio branch of the installation, in the world [w2] the static
    branch left. *)
Lemma install_audio_eval (w2 : world) (o : option response)
  (rest : list (option response)) :
  network w2 = o :: rest ->
  exists w4,
    (caches_open AUDIO_CACHE ;; cache_add AUDIO_CACHE BREATHING_AUDIO) w2
    = (if (addAll_accepts o && negb (quota_exceeded w2))%bool then Ok tt
       else fst (cache_add AUDIO_CACHE BREATHING_AUDIO (open_world AUDIO_CACHE w2)), w4) /\
    (forall m v, stored w4 m v =
       if (addAll_accepts o && negb (quota_exceeded w2) && String.eqb m AUDIO_CACHE
           && String.eqb v BREATHING_AUDIO)%bool
       then o else stored w2 m v) /\
    fetch_log w4 = (fetch_log w2 ++ [BREATHING_AUDIO])%list /\
    skipped_waiting w4 = skipped_waiting w2.
Proof.
  intros Hn. set (w3 := open_world AUDIO_CACHE w2).
  destruct (open_world_fields AUDIO_CACHE w2) as (Hn3 & Hl3 & _). fold w3 in Hn3, Hl3.
  destruct (open_world_fields' AUDIO_CACHE w2) as [c3 Hc3]. fold w3 in Hc3.
  rewrite <- Hn3 in Hn.
  destruct (cache_add_eval AUDIO_CACHE BREATHING_AUDIO w3 o rest Hn) as [Hs Hf].
  destruct (cache_add AUDIO_CACHE BREATHING_AUDIO w3) as [res w4] eqn:E.
  assert (Hq3 : quota_exceeded w3 = quota_exceeded w2) by apply open_world_quota.
  rewrite Hq3 in Hf.
  cbn in Hs, Hf. exists w4. split.
  - erewrite bind_Ok by apply caches_open_eval. fold w3. rewrite E.
    destruct (addAll_accepts o && negb (quota_exceeded w2))%bool; [|reflexivity].
    f_equal. apply Hf. reflexivity.
  - destruct (add_world_fields AUDIO_CACHE BREATHING_AUDIO o
                (set_network rest (fetch_log w3 ++ [BREATHING_AUDIO])%list w3)) as [c Hc].
    rewrite Hs. split; [|split].
    + intros m v. rewrite stored_add_world, stored_set_network, quota_set_network, Hq3.
      unfold w3. rewrite stored_open. reflexivity.
    + rewrite Hc. cbn. rewrite Hl3. reflexivity.
    + rewrite Hc, Hc3. reflexivity.
Qed.

(** X8. Installation completes exactly as planned when the storage quota
    is not used up and every fetch of the five static assets and of the
    breathing audio file gives an ok, non-partial response without a
    [Vary] field value "*": each asset is stored under its path in the
    static partition, the audio file in the audio partition, and
    [skipWaiting] is called. *)
Theorem install_success (w : world) (outs : list (option response))
  (o : option response) (rest : list (option response)) :
  network w = (outs ++ o :: rest)%list -> length outs = length STATIC_ASSETS ->
  forallb addAll_accepts outs = true -> addAll_accepts o = true ->
  quota_exceeded w = false ->
  exists w', install w = (Ok tt, w') /\ skipped_waiting w' = true /\
    (forall u r, In (u, Some r) (combine STATIC_ASSETS outs) ->
                 stored w' STATIC_CACHE u = Some r) /\
    stored w' AUDIO_CACHE BREATHING_AUDIO = o /\
    fetch_log w' = (fetch_log w ++ STATIC_ASSETS ++ [BREATHING_AUDIO])%list.
Proof.
  intros Hn Hl Hall Ho Hq.
  destruct (install_static_eval w outs o rest Hn Hl) as [Hok _].
  destruct (Hok Hall Hq) as (c & HA & Hkeep & Hnew). clear Hok.
  set (w2 := set_caches c (set_network (o :: rest) (fetch_log w ++ STATIC_ASSETS)%list
                                       (open_world STATIC_CACHE w))).
  fold w2 in HA, Hkeep, Hnew.
  assert (Hq2 : quota_exceeded w2 = false).
  { unfold w2. cbn [quota_exceeded set_caches]. rewrite quota_set_network, open_world_quota.
    exact Hq. }
  destruct (install_audio_eval w2 o rest eq_refl) as (w4 & HB & Hst & Hlog & _).
  rewrite Ho, Hq2 in HB.
  exists (set_skipped true w4). split.
  { unfold install. erewrite bind_Ok by (rewrite settled_eval, HA; reflexivity).
    cbv beta; cbn [fst snd]. fold w2. erewrite bind_Ok by (rewrite settled_eval, HB; reflexivity).
    reflexivity. }
  split; [reflexivity|]. split; [|split].
  - intros u r Hin. change (stored w4 STATIC_CACHE u = Some r).
    rewrite Hst, Ho, Hq2. cbn. exact (Hnew u r Hin).
  - change (stored w4 AUDIO_CACHE BREATHING_AUDIO = o).
    rewrite Hst, Ho, Hq2. reflexivity.
  - change (fetch_log w4 = (fetch_log w ++ STATIC_ASSETS ++ [BREATHING_AUDIO])%list).
    rewrite Hlog, app_assoc. unfold w2. cbn.
    destruct (open_world_fields STATIC_CACHE w) as (_ & Hl0 & _). reflexivity.
Qed.

(** X9. When one of the static-asset fetches rejects or gives a response
    that is not ok, is partial or has a [Vary] field value "*",
    [cache.addAll] stores none of them and installation fails without
    [skipWaiting]; the audio branch still runs to the end, so the breathing
    audio file is stored whenever its own fetch gives an ok, non-partial
    response without [Vary: *] and the storage quota is not used up. *)
Theorem install_static_failure (w : world) (outs : list (option response))
  (o : option response) (rest : list (option response)) :
  network w = (outs ++ o :: rest)%list -> length outs = length STATIC_ASSETS ->
  forallb addAll_accepts outs = false ->
  exists w', install w = (Err (TypeError "Request failed"), w') /\
    skipped_waiting w' = skipped_waiting w /\
    (forall u, stored w' STATIC_CACHE u = stored w STATIC_CACHE u) /\
    stored w' AUDIO_CACHE BREATHING_AUDIO =
      (if (addAll_accepts o && negb (quota_exceeded w))%bool then o
       else stored w AUDIO_CACHE BREATHING_AUDIO).
Proof.
  intros Hn Hl Hall.
  destruct (install_static_eval w outs o rest Hn Hl) as [_ Hfail].
  specialize (Hfail Hall).
  set (w1 := set_network (o :: rest) (fetch_log w ++ STATIC_ASSETS)%list
                         (open_world STATIC_CACHE w)).
  fold w1 in Hfail.
  destruct (install_audio_eval w1 o rest eq_refl) as (w4 & HB & Hst & _ & Hsk).
  exists w4. split.
  { unfold install. erewrite bind_Ok by (rewrite settled_eval, Hfail; reflexivity).
    cbv beta; cbn [fst snd]. fold w1. erewrite bind_Ok by (rewrite settled_eval, HB; reflexivity).
    reflexivity. }
  assert (Hw1 : forall m v, stored w1 m v = stored w m v).
  { intros m v. unfold w1. rewrite stored_set_network, stored_open. reflexivity. }
  assert (Hq1 : quota_exceeded w1 = quota_exceeded w).
  { unfold w1. rewrite quota_set_network, open_world_quota. reflexivity. }
  rewrite Hq1 in Hst.
  split; [|split].
  - rewrite Hsk. unfold w1. cbn.
    destruct (open_world_fields' STATIC_CACHE w) as [c Hc]. rewrite Hc. reflexivity.
  - intros u. rewrite Hst, Hw1. rewrite !andb_false_r. cbn.
    destruct (addAll_accepts o && negb (quota_exceeded w))%bool; reflexivity.
  - rewrite Hst, Hw1. cbn. destruct (addAll_accepts o && negb (quota_exceeded w))%bool;
      reflexivity.
Qed.

(** ** Control messages *)

Lemma message_sync_now (d : message) (w : world) :
  msg_type d = Some "SYNC_NOW" -> message_event (Some d) w = triggerSync (msg_tag d) w.
Proof. intros H. cbn. rewrite H. reflexivity. Qed.

Lemma triggerSync_supported (t : string) (w : world) :
  sync_manager w = true ->
  triggerSync t w =
  (Ok tt, if existsb (String.eqb t) (sync_registered w) then w
          else set_sync (sync_registered w ++ [t])%list w).
Proof. intros H. unfold triggerSync, sync_register, try_catch, bind, gets. now rewrite H. Qed.

Lemma triggerSync_unsupported (t : string) (w : world) :
  sync_manager w = false -> triggerSync t w = (Ok tt, w).
Proof. intros H. unfold triggerSync, sync_register, try_catch, bind, gets. now rewrite H. Qed.

Lemma nodup_snoc (l : list string) (x : string) :
  List.NoDup l -> ~ In x l -> List.NoDup (l ++ [x])%list.
Proof.
  induction l as [|a l IH]; intros Hl Hx; cbn; [repeat constructor; tauto|].
  inversion Hl as [|? ? Ha Hl']; subst. constructor.
  - rewrite in_app_iff. cbn. intros [H|[H|[]]]; [tauto|]. subst. cbn in Hx. tauto.
  - apply IH; [exact Hl'|]. cbn in Hx. tauto.
Qed.

(** X10. The SYNC_NOW command registers a background sync under the
    message's tag at most once.  When the browser has [registration.sync],
    the tag joins the registered tags unless it is already among them: the
    tags afterwards are those before and the message's tag, a list of tags
    without repetitions stays without repetitions, and sending the same
    command again changes nothing.  Without [registration.sync] the
    TypeError is caught and nothing changes.  SKIP_WAITING marks the worker
    as skipping the wait, and a message without data, without a type, or
    with a type the listener does not know changes nothing. *)
Theorem message_event_commands (w : world) :
  message_event None w = (Ok tt, w) /\
  (forall d, msg_type d = None -> message_event (Some d) w = (Ok tt, w)) /\
  (forall d ty, msg_type d = Some ty ->
     ~ In ty ["SKIP_WAITING"; "CACHE_AUDIO"; "CLEAR_CACHE"; "SYNC_NOW"] ->
     message_event (Some d) w = (Ok tt, w)) /\
  (forall d, msg_type d = Some "SKIP_WAITING" ->
     message_event (Some d) w = (Ok tt, set_skipped true w)) /\
  (forall d, msg_type d = Some "SYNC_NOW" -> sync_manager w = false ->
     message_event (Some d) w = (Ok tt, w)) /\
  (forall d, msg_type d = Some "SYNC_NOW" -> sync_manager w = true ->
     exists w', message_event (Some d) w = (Ok tt, w') /\
       (forall t, In t (sync_registered w') <-> In t (sync_registered w) \/ t = msg_tag d) /\
       (List.NoDup (sync_registered w) -> List.NoDup (sync_registered w')) /\
       message_event (Some d) w' = (Ok tt, w') /\
       caches w' = caches w /\ pending_requests w' = pending_requests w).
Proof.
  split; [reflexivity|]. split; [|split; [|split; [|split]]].
  - intros d H. cbn. rewrite H. reflexivity.
  - intros d ty H Hin. cbn. rewrite H.
    destruct (String.eqb_spec ty ""); [reflexivity|].
    destruct (String.eqb_spec ty "SKIP_WAITING"); [subst; cbn in Hin; tauto|].
    destruct (String.eqb_spec ty "CACHE_AUDIO"); [subst; cbn in Hin; tauto|].
    destruct (String.eqb_spec ty "CLEAR_CACHE"); [subst; cbn in Hin; tauto|].
    destruct (String.eqb_spec ty "SYNC_NOW"); [subst; cbn in Hin; tauto|].
    reflexivity.
  - intros d H. cbn. rewrite H. reflexivity.
  - intros d H Hs. rewrite message_sync_now by exact H. now apply triggerSync_unsupported.
  - intros d H Hs. rewrite message_sync_now by exact H.
    rewrite triggerSync_supported by exact Hs.
    destruct (existsb (String.eqb (msg_tag d)) (sync_registered w)) eqn:E.
    + apply existsb_exists in E as (t0 & Ht0 & Heq). apply String.eqb_eq in Heq. subst t0.
      exists w. split; [reflexivity|]. split; [|split; [tauto|split; [|split; reflexivity]]].
      * intros t. split; [tauto|]. intros [Ht| ->]; [exact Ht|exact Ht0].
      * rewrite message_sync_now by exact H. rewrite triggerSync_supported by exact Hs.
        rewrite (existsb_in _ _ Ht0). reflexivity.
    + assert (Hn : ~ In (msg_tag d) (sync_registered w)).
      { intros Hin. rewrite (existsb_in _ _ Hin) in E. discriminate. }
      eexists. split; [reflexivity|]. cbn [sync_registered set_sync].
      split; [|split; [|split; [|split; reflexivity]]].
      * intros t. rewrite in_app_iff. cbn. split; [intros [?|[?|[]]]; auto|].
        intros [?| ->]; auto.
      * intros Hnd. apply nodup_snoc; assumption.
      * rewrite message_sync_now by exact H. rewrite triggerSync_supported by exact Hs.
        cbn [sync_registered set_sync].
        rewrite (existsb_in (msg_tag d)) by (apply in_app_iff; right; left; reflexivity).
        reflexivity.
Qed.

(** ** Mood data sync *)

(** X11. Mood sync sends nothing when the mood store is empty; otherwise it
    POSTs the store to /api/sync-mood once and clears the store exactly
    when the response is 2xx.  It never fails, and leaves Cache Storage and
    the Outbox as they were. *)
Theorem syncMoodData_outcome (w : world) :
  (mood_data w = [] -> syncMoodData w = (Ok tt, w)) /\
  (forall o rest, mood_data w <> [] -> network w = o :: rest ->
   exists w', syncMoodData w = (Ok tt, w') /\
     fetch_log w' = (fetch_log w ++ ["/api/sync-mood"])%list /\
     mood_data w' = (match o with
                     | Some r => if ok r then [] else mood_data w
                     | None => mood_data w
                     end) /\
     caches w' = caches w /\ pending_requests w' = pending_requests w).
Proof.
  split.
  - intros H. unfold syncMoodData. apply try_Ok.
    erewrite bind_Ok by reflexivity. rewrite H. reflexivity.
  - intros o rest Hm Hn. destruct (mood_data w) as [|m ms] eqn:Em; [congruence|].
    destruct o as [r|].
    + destruct (ok r) eqn:Hok.
      * eexists. split.
        { unfold syncMoodData. apply try_Ok.
          erewrite bind_Ok by reflexivity. rewrite Em. cbn [length Nat.ltb Nat.leb].
          erewrite bind_Ok by (apply fetch_resolved; exact Hn). rewrite Hok.
          reflexivity. }
        repeat split.
      * eexists. split.
        { unfold syncMoodData. apply try_Ok.
          erewrite bind_Ok by reflexivity. rewrite Em. cbn [length Nat.ltb Nat.leb].
          erewrite bind_Ok by (apply fetch_resolved; exact Hn). rewrite Hok.
          reflexivity. }
        cbn. rewrite Em. repeat split.
    + eexists. split.
      { unfold syncMoodData.
        erewrite try_Err.
        2:{ erewrite bind_Ok by reflexivity. rewrite Em. cbn [length Nat.ltb Nat.leb].
            erewrite bind_Err by (apply fetch_rejected; exact Hn). reflexivity. }
        reflexivity. }
      cbn. rewrite Em. repeat split.
Qed.

(** ** Periodic sync *)

(** X12. The mood reminder never shows a notification: the worker's global
    scope has no [localStorage], so reading it throws and the error is
    swallowed; the world is left as it was.  The [periodicsync] listener
    does the same for the "mood-reminder" tag and for any tag other than
    "crisis-check". *)
Theorem mood_reminder_never_shown (w : world) (tag : string) :
  sendMoodReminder w = (Ok tt, w) /\
  periodicsync_event "mood-reminder" w = (Ok tt, w) /\
  (tag <> "crisis-check" -> tag <> "mood-reminder" ->
   periodicsync_event tag w = (Ok tt, w)).
Proof.
  assert (H : sendMoodReminder w = (Ok tt, w)) by reflexivity.
  split; [exact H|]. split; [exact H|].
  intros H1 H2. unfold periodicsync_event.
  destruct (String.eqb_spec tag "crisis-check"); [congruence|].
  destruct (String.eqb_spec tag "mood-reminder"); [congruence|]. reflexivity.
Qed.

(** ** Push and notification clicks *)

Lemma prefix_cons (a : Ascii.ascii) (p s : string) :
  String.prefix (String a p) s = true -> exists s', s = String a s'.
Proof.
  destruct s as [|b s']; cbn; [discriminate|].
  destruct (Ascii.ascii_dec a b) as [->|]; [eauto|discriminate].
Qed.

(** X14. A notification click focuses a window whose URL equals the
    notification's [data.url] ("/" when that is absent or empty) when one
    exists, and otherwise opens a new window at that URL if the browser
    supports [openWindow]. *)
Theorem notification_click_choice (data_url : option string) (cl : list client)
  (canOpen : bool) :
  url_to_open None = "/" /\ url_to_open (Some "") = "/" /\
  (forall c, In c cl -> c_url c = url_to_open data_url -> c_focusable c = true ->
   exists c', notification_click data_url cl canOpen = Focus c' /\ In c' cl /\
              c_url c' = url_to_open data_url) /\
  (Forall (fun c => c_url c <> url_to_open data_url \/ c_focusable c = false) cl ->
   notification_click data_url cl canOpen =
   if canOpen then OpenWindow (url_to_open data_url) else NoAction).
Proof.
  split; [reflexivity|]. split; [reflexivity|]. unfold notification_click. split.
  - intros c Hin Hu Hf.
    destruct (List.find _ cl) as [c'|] eqn:E.
    + apply find_some in E as [Hin' Hc']. apply andb_true_iff in Hc' as [Hu' _].
      apply String.eqb_eq in Hu'. eauto.
    + apply (find_none _ _ E) in Hin. rewrite Hu, String.eqb_refl, Hf in Hin.
      discriminate.
  - intros Hall. destruct (List.find _ cl) as [c'|] eqn:E; [|reflexivity].
    apply find_some in E as [Hin Hc]. rewrite List.Forall_forall in Hall.
    apply andb_true_iff in Hc as [Hu Hf]. apply String.eqb_eq in Hu.
    destruct (Hall c' Hin); congruence.
Qed.

(** X15. The notifications the worker shows carry origin-relative URLs
    (such as "/?section=crisis"), while a window client's URL is absolute:
    clicking such a notification never focuses an open window, even one
    showing that very page, and always opens a new one. *)
Theorem relative_url_click_opens_window (u : string) (cl : list client) :
  startsWith u "/" = true ->
  Forall (fun c => startsWith (c_url c) "http" = true) cl ->
  notification_click (Some u) cl true = OpenWindow u.
Proof.
  intros Hu Hcl. apply prefix_cons in Hu as [u' ->].
  unfold notification_click, url_to_open. cbn [String.eqb].
  replace (List.find _ cl) with (@None client); [reflexivity|].
  induction Hcl as [|c cl Hc Hcl IH]; [reflexivity|]. cbn [List.find].
  apply prefix_cons in Hc as [s Hs]. rewrite Hs, <- IH. reflexivity.
Qed.

(** ** Which handlers write the IndexedDB stores *)

Lemma db_modify (f : world -> world) :
  (forall w, db_same w (f w)) -> steps db_same (modify f).
Proof. intros H w. apply H. Qed.

#[local] Hint Extern 1 (steps db_same (modify _)) =>
  apply db_modify; intros ?; repeat case_match; repeat split : frames.

Lemma db_fetch_each (urls : list string) : steps db_same (fetch_each urls).
Proof. induction urls; cbn [fetch_each]; steps_walk. Qed.

Lemma db_put_all (n : string) (entries : list (string * option response)) :
  steps db_same (put_all n entries).
Proof. induction entries as [|[u [r|]] rest IH]; cbn [put_all]; steps_walk. Qed.

Lemma db_delete_caches (names : list string) : steps db_same (delete_caches names).
Proof. induction names; cbn [delete_caches]; steps_walk. Qed.

Lemma db_delete_old (names : list string) : steps db_same (delete_old names).
Proof. induction names; cbn [delete_old]; steps_walk. Qed.

#[local] Hint Resolve db_fetch_each db_put_all db_delete_caches db_delete_old : frames.

(** X4. Only the POST path, the Outbox replay and the mood sync write the
    IndexedDB stores: handling a GET, installation, activation, control
    messages, periodic syncs and pushes leave the Outbox, its key
    generator and the mood records as they were. *)
Theorem handlers_keep_db :
  (forall req, steps db_same (handleGetRequest req)) /\
  steps db_same install /\ steps db_same activate /\
  (forall d, steps db_same (message_event d)) /\
  (forall tag, steps db_same (periodicsync_event tag)) /\
  (forall d, steps db_same (push_event d)).
Proof.
  split; [exact db_handleGetRequest|].
  split; [unfold install, settled, cache_addAll, cache_add; steps_walk|].
  split; [unfold activate; steps_walk|].
  split; [intros d; unfold message_event, cacheAudioFile, cache_add, clearAllCaches,
            triggerSync, sync_register; steps_walk|].
  split; [intros tag; unfold periodicsync_event, checkCrisisSupport, sendMoodReminder,
            localStorage_getItem; steps_walk|].
  intros d. unfold push_event. steps_walk.
Qed.

(** ** Frames of the handlers that write Cache Storage *)

Lemma steps_modify (R : world -> world -> Prop) (f : world -> world) :
  (forall w, R w (f w)) -> steps R (modify f).
Proof. intros H w. apply H. Qed.

(** A relation between worlds that every world update the handlers make,
    except the deletion of a partition and the showing of a notification,
    satisfies. *)
Section Fields.
Context (R : world -> world -> Prop) `{!PreOrder R}.
Hypothesis R_network : forall n l w, R w (set_network n l w).
Hypothesis R_jobs : forall j w, R w (set_jobs j w).
Hypothesis R_open : forall n w, R w (open_world n w).
Hypothesis R_put : forall n u r w, R w (put_world n u r w).
Hypothesis R_outbox : forall o k w, R w (set_outbox o k w).
Hypothesis R_sync : forall t w, R w (set_sync t w).
Hypothesis R_skipped : forall b w, R w (set_skipped b w).
Hypothesis R_moods : forall l w, R w (set_moods l w).

Lemma fld_fetch (u : string) : steps R (fetch u).
Proof. intros w. unfold fetch. destruct (network w) as [|[r|] rest]; apply R_network. Qed.

Lemma fld_caches_open (n : string) : steps R (caches_open n).
Proof. intros w. apply R_open. Qed.

Lemma fld_cache_match (n u : string) : steps R (cache_match n u).
Proof. intros w. cbn. reflexivity. Qed.

Lemma fld_cache_put (n u : string) (r : response) : steps R (cache_put n u r).
Proof.
  intros w. rewrite cache_put_run. destruct (put_accepts _ r); [apply R_put|cbn; reflexivity].
Qed.

Lemma fld_spawn (j : job) : steps R (spawn j).
Proof. intros w. apply R_jobs. Qed.

Lemma fld_fetch_request (req : request) : steps R (fetch_request req).
Proof.
  unfold fetch_request. destruct (req_body req), (body_used req);
    first [apply fld_fetch | apply steps_throw; exact _].
Qed.

Lemma fld_request_text (req : request) : steps R (request_text req).
Proof. unfold request_text. destruct (body_used req); [apply steps_throw|apply steps_ret]; exact _. Qed.

#[local] Hint Resolve fld_fetch fld_caches_open fld_cache_match fld_cache_put fld_spawn
  fld_fetch_request fld_request_text : frames.
#[local] Hint Extern 1 (steps R (modify _)) =>
  apply steps_modify; intros ?; repeat case_match;
  first [reflexivity | solve [eauto]] : frames.

Lemma fld_put_or_null (n u : string) (r : response) : steps R (put_or_null n u r).
Proof. unfold put_or_null. steps_walk. Qed.
#[local] Hint Resolve fld_put_or_null : frames.

Lemma fld_run_jobs (l : list job) : steps R (run_jobs l).
Proof. induction l as [|[n u r] l IH]; cbn [run_jobs]; unfold run_job; steps_walk. Qed.
#[local] Hint Resolve fld_run_jobs : frames.

Lemma fld_settle : steps R settle.
Proof. unfold settle. steps_walk. Qed.

Lemma fld_handleGetRequest (req : request) : steps R (handleGetRequest req).
Proof.
  unfold handleGetRequest, cacheFirstStrategy, networkFirstStrategy,
    staleWhileRevalidateStrategy, getFallbackResponse.
  steps_walk.
Qed.

Lemma fld_handlePostRequest (req : request) : steps R (handlePostRequest req).
Proof. unfold handlePostRequest, storeForBackgroundSync. steps_walk. Qed.

Lemma fld_replay_all (l : list pending_request) : steps R (replay_all l).
Proof. induction l; cbn [replay_all]; unfold replay_one, delete_pending; steps_walk. Qed.
#[local] Hint Resolve fld_replay_all : frames.

Lemma fld_syncPendingRequests : steps R syncPendingRequests.
Proof. unfold syncPendingRequests. steps_walk. Qed.

Lemma fld_syncMoodData : steps R syncMoodData.
Proof. unfold syncMoodData. steps_walk. Qed.

Lemma fld_fetch_each (urls : list string) : steps R (fetch_each urls).
Proof. induction urls; cbn [fetch_each]; steps_walk. Qed.

Lemma fld_put_all (n : string) (entries : list (string * option response)) :
  steps R (put_all n entries).
Proof. induction entries as [|[u [r|]] rest IH]; cbn [put_all]; steps_walk. Qed.
#[local] Hint Resolve fld_fetch_each fld_put_all : frames.

Lemma fld_install : steps R install.
Proof. unfold install, settled, cache_addAll, cache_add. steps_walk. Qed.

Lemma fld_cacheAudioFile (url : string) : steps R (cacheAudioFile url).
Proof. unfold cacheAudioFile, cache_add. steps_walk. Qed.

Lemma fld_triggerSync (tag : string) : steps R (triggerSync tag).
Proof. unfold triggerSync, sync_register. steps_walk. Qed.

End Fields.

Lemma caches_grow_preorder : PreOrder caches_grow.
Proof.
  split.
  - intros w n p Hp. exists p. auto.
  - intros w1 w2 w3 H12 H23 n p Hp.
    destruct (H12 n p Hp) as (p2 & Hp2 & Hs2).
    destruct (H23 n p2 Hp2) as (p3 & Hp3 & Hs3).
    exists p3. auto.
Qed.
#[local] Existing Instance caches_grow_preorder.

Lemma grow_keep (w w' : world) : caches w' = caches w -> caches_grow w w'.
Proof. intros E n p Hp. exists p. rewrite E. auto. Qed.

Lemma grow_open (n : string) (w : world) : caches_grow w (open_world n w).
Proof.
  intros m p Hp. exists p. split; [|auto]. unfold open_world.
  destruct (caches w !! n) eqn:E; [exact Hp|]. cbn.
  rewrite lookup_insert_ne; [exact Hp|]. intros ->. congruence.
Qed.

Lemma grow_put (n u : string) (r : response) (w : world) :
  caches_grow w (put_world n u r w).
Proof.
  intros m p Hp. unfold put_world. cbn. destruct (decide (m = n)) as [->|Hne].
  - exists (<[u := r]> p). rewrite lookup_insert_eq, Hp. split; [reflexivity|].
    intros v Hv. apply lookup_insert_is_Some'. auto.
  - exists p. rewrite lookup_insert_ne by congruence. auto.
Qed.

Lemma shown_same_preorder : PreOrder shown_same.
Proof. split; unfold shown_same; [intros w; reflexivity|intros w1 w2 w3 H1 H2; congruence]. Qed.
#[local] Existing Instance shown_same_preorder.

Lemma shown_open (n : string) (w : world) : shown_same w (open_world n w).
Proof. unfold shown_same, open_world. by destruct (caches w !! n). Qed.

Create HintDb worlds.
#[local] Hint Resolve grow_open grow_put shown_open : worlds.
#[local] Hint Extern 1 (caches_grow _ _) => apply grow_keep; reflexivity : worlds.
#[local] Hint Extern 1 (shown_same _ _) => reflexivity : worlds.

(** Applies one of the lemmas of [Fields] to a relation, discharging the
    world updates it needs. *)
Ltac fields lem := eapply lem; [exact _|..]; intros; eauto with worlds.

Lemma activate_shown : steps shown_same activate.
Proof. intros w. unfold activate. erewrite bind_Ok by reflexivity. rewrite delete_old_eval. reflexivity. Qed.

Lemma message_event_shown (d : option message) : steps shown_same (message_event d).
Proof.
  destruct d as [m|]; [|apply steps_ret; exact _]. unfold message_event.
  destruct (msg_type m) as [ty|]; [|apply steps_ret; exact _].
  destruct (String.eqb ty ""); [apply steps_ret; exact _|].
  destruct (String.eqb ty "SKIP_WAITING"); [apply steps_modify; intros; reflexivity|].
  destruct (String.eqb ty "CACHE_AUDIO"); [fields fld_cacheAudioFile|].
  destruct (String.eqb ty "CLEAR_CACHE"); [intros w; rewrite clearAllCaches_eval; reflexivity|].
  destruct (String.eqb ty "SYNC_NOW"); [fields fld_triggerSync|apply steps_ret; exact _].
Qed.

#[local] Hint Extern 1 (steps caches_grow (modify _)) =>
  apply steps_modify; intros ?; apply grow_keep; reflexivity : frames.

(** C7 (amended). Activation deletes every partition whose name is none of
    the three current names (static, dynamic, audio) and keeps each of those
    as it was; it creates no partition and touches no other store.  So from
    {v1-static, v1-dynamic, v2-static} only v2-static remains, and
    v2-dynamic exists only once something opens it.  Apart from activation,
    only the CLEAR_CACHE command removes anything from Cache Storage, and it
    deletes every partition: handling a GET or a POST, installation, the
    continuations left by stale-while-revalidate, the Outbox replay, the
    mood sync, periodic syncs, pushes and every other control message keep
    every partition and every entry present before (an entry may be
    overwritten). *)
Theorem activate_contract (w : world) :
  (exists w', activate w = (Ok tt, w') /\
    (forall n, caches w' !! n = if expected_cache n then caches w !! n else None) /\
    pending_requests w' = pending_requests w /\
    mood_data w' = mood_data w) /\
  message_event (Some (command "CLEAR_CACHE")) w = (Ok tt, set_caches ∅ w) /\
  (forall req, steps caches_grow (handleGetRequest req)) /\
  (forall req, steps caches_grow (handlePostRequest req)) /\
  steps caches_grow install /\ steps caches_grow settle /\
  steps caches_grow syncPendingRequests /\ steps caches_grow syncMoodData /\
  (forall tag, steps caches_grow (periodicsync_event tag)) /\
  (forall d, steps caches_grow (push_event d)) /\
  (forall d, (forall m, d = Some m -> msg_type m <> Some "CLEAR_CACHE") ->
     steps caches_grow (message_event d)).
Proof.
  split.
  { unfold activate. erewrite bind_Ok by reflexivity. rewrite delete_old_eval.
    eexists. split; [reflexivity|]. split; [|split; reflexivity].
    intros n. cbn. rewrite fold_delete_old_lookup.
    destruct (expected_cache n) eqn:He; cbn.
    - rewrite andb_false_r. reflexivity.
    - rewrite andb_true_r. destruct (caches w !! n) as [p|] eqn:E.
      + rewrite (existsb_in n (caches_keys w)) by (eapply in_caches_keys; exact E).
        reflexivity.
      + by destruct (existsb _ _). }
  split; [cbn; apply clearAllCaches_eval|].
  split; [intros req; fields fld_handleGetRequest|].
  split; [intros req; fields fld_handlePostRequest|].
  split; [fields fld_install|]. split; [fields fld_settle|].
  split; [fields fld_syncPendingRequests|]. split; [fields fld_syncMoodData|].
  split; [intros tag; unfold periodicsync_event, checkCrisisSupport, sendMoodReminder,
            localStorage_getItem; steps_walk|].
  split; [intros d; unfold push_event; steps_walk|].
  intros d Hd. destruct d as [m|]; [|apply steps_ret; exact _]. unfold message_event.
  destruct (msg_type m) as [ty|] eqn:E; [|apply steps_ret; exact _].
  destruct (String.eqb ty ""); [apply steps_ret; exact _|].
  destruct (String.eqb ty "SKIP_WAITING"); [apply steps_modify; intros; apply grow_keep; reflexivity|].
  destruct (String.eqb ty "CACHE_AUDIO"); [fields fld_cacheAudioFile|].
  destruct (String.eqb_spec ty "CLEAR_CACHE") as [->|_]; [exfalso; exact (Hd m eq_refl E)|].
  destruct (String.eqb ty "SYNC_NOW"); [fields fld_triggerSync|apply steps_ret; exact _].
Qed.

(** C7 counterexample: from {static-v0, dynamic-v0, static-v1} activation
    leaves static-v1 alone; the current dynamic partition does not remain,
    since it never existed and activation creates none.  Activation is not
    the only deletion: CLEAR_CACHE deletes the current partitions too. *)
Lemma activate_creates_nothing :
  caches_keys (snd (activate (world_partitions
    ["mindchat-static-v0"; "mindchat-dynamic-v0"; STATIC_CACHE])))
  = [STATIC_CACHE] /\
  caches (snd (activate (world_partitions
    ["mindchat-static-v0"; "mindchat-dynamic-v0"; STATIC_CACHE]))) !! DYNAMIC_CACHE
  = None /\
  caches_keys (snd (message_event (Some (command "CLEAR_CACHE"))
    (world_partitions [STATIC_CACHE; DYNAMIC_CACHE; AUDIO_CACHE]))) = [].
Proof. vm_compute. split; [|split]; reflexivity. Qed.

(** X13. Only a periodic sync and a push show notifications.  Handling a
    GET or a POST, installation, activation, the continuations left by
    stale-while-revalidate, the Outbox replay, the mood sync and every
    control message leave the notifications shown as they were; a periodic
    sync or a push adds at most one, after those already shown. *)
Theorem notifications_frame :
  (forall req, steps shown_same (handleGetRequest req)) /\
  (forall req, steps shown_same (handlePostRequest req)) /\
  steps shown_same install /\ steps shown_same activate /\ steps shown_same settle /\
  steps shown_same syncPendingRequests /\ steps shown_same syncMoodData /\
  (forall d, steps shown_same (message_event d)) /\
  (forall tag w, exists l, shown (snd (periodicsync_event tag w)) = (shown w ++ l)%list /\
                           length l <= 1) /\
  (forall d w, exists l, shown (snd (push_event d w)) = (shown w ++ l)%list /\
                         length l <= 1).
Proof.
  split; [intros req; fields fld_handleGetRequest|].
  split; [intros req; fields fld_handlePostRequest|].
  split; [fields fld_install|]. split; [exact activate_shown|].
  split; [fields fld_settle|].
  split; [fields fld_syncPendingRequests|]. split; [fields fld_syncMoodData|].
  split; [exact message_event_shown|]. split.
  - intros tag w. unfold periodicsync_event.
    destruct (String.eqb tag "crisis-check").
    + unfold checkCrisisSupport, try_catch, bind, gets. cbn [fst snd].
      destruct (Nat.leb 3 _); cbn.
      * exists [crisis_notification]. split; [reflexivity|cbn; lia].
      * exists []. rewrite app_nil_r. split; [reflexivity|cbn; lia].
    + exists []. rewrite app_nil_r. split; [|cbn; lia].
      destruct (String.eqb tag "mood-reminder"); reflexivity.
  - intros d w. destruct d as [d|].
    + eexists. split; [reflexivity|cbn; lia].
    + exists []. rewrite app_nil_r. split; [reflexivity|cbn; lia].
Qed.

(** ** Outbox keys *)

Lemma kept_of_db {A} (m : M A) : steps db_same m -> steps outbox_kept m.
Proof.
  apply steps_weaken. intros w w' (Hp & Hk & _) [Hs Hf].
  unfold outbox_wf. rewrite Hp, Hk. auto.
Qed.

Lemma sorted_snoc (l : list nat) (x : nat) :
  StronglySorted lt l -> Forall (fun y => y < x) l -> StronglySorted lt (l ++ [x])%list.
Proof.
  induction l as [|a l IH]; intros Hs Hf; cbn.
  - repeat constructor.
  - inversion Hs as [|? ? Hs' Ha]; subst. inversion Hf as [|? ? Hax Hf']; subst.
    constructor; [auto|]. apply List.Forall_app. split; [exact Ha|]. auto.
Qed.

Lemma sorted_filter (f : pending_request -> bool) (l : list pending_request) :
  StronglySorted lt (map id l) -> StronglySorted lt (map id (List.filter f l)).
Proof.
  induction l as [|a l IH]; intros Hs; cbn; [constructor|].
  inversion Hs as [|? ? Hs' Ha]; subst. destruct (f a); cbn; [|auto].
  constructor; [auto|]. rewrite List.Forall_forall in Ha |- *.
  intros y Hy. apply in_map_iff in Hy as (p & <- & Hp). apply filter_In in Hp as [Hp _].
  apply Ha, in_map, Hp.
Qed.

Lemma kept_delete_pending (k : nat) : steps outbox_kept (delete_pending k).
Proof.
  intros w [Hs Hf]. cbn. split; [apply sorted_filter, Hs|].
  rewrite List.Forall_forall in Hf |- *. intros p Hp. apply filter_In in Hp as [Hp _].
  auto.
Qed.

Lemma outbox_wf_snoc (w : world) (e : pending_request) :
  outbox_wf w -> id e = next_key w ->
  outbox_wf (set_outbox (pending_requests w ++ [e])%list (S (next_key w)) w).
Proof.
  intros [Hs Hf] He. split.
  - change (StronglySorted lt (map id (pending_requests w ++ [e])%list)).
    rewrite List.map_app. cbn [map]. rewrite He. apply sorted_snoc; [exact Hs|].
    apply List.Forall_map. exact Hf.
  - change (Forall (fun p => id p < S (next_key w)) (pending_requests w ++ [e])%list).
    apply List.Forall_app. split; [|constructor; [lia|constructor]].
    eapply List.Forall_impl; [|exact Hf]. intros p Hp. cbn in Hp. lia.
Qed.

Lemma kept_storeForBackgroundSync (req : request) :
  steps outbox_kept (storeForBackgroundSync req).
Proof.
  intros w H. unfold storeForBackgroundSync, request_text.
  destruct (body_used req); [exact H|]. apply outbox_wf_snoc; [exact H|reflexivity].
Qed.

Lemma kept_modify_moods (l : list mood) : steps outbox_kept (modify (set_moods l)).
Proof. intros w H. exact H. Qed.

#[local] Hint Resolve kept_of_db kept_delete_pending kept_storeForBackgroundSync
  kept_modify_moods : frames.

Lemma kept_replay_all (l : list pending_request) : steps outbox_kept (replay_all l).
Proof. induction l; cbn [replay_all]; unfold replay_one; steps_walk. Qed.
#[local] Hint Resolve kept_replay_all : frames.

(** X16. The Outbox keys stay strictly increasing in store order and below
    the key generator under every handler that writes the stores (the
    queueing of a POST, the Outbox replay, the mood sync) and under GET
    handling; the stores start empty, so in every world reached this way
    the Outbox keys are pairwise distinct, as the replay needs. *)
Theorem outbox_keys_unique :
  (forall t net, outbox_wf (world_with t net)) /\
  (forall req, steps outbox_kept (storeForBackgroundSync req)) /\
  (forall req, steps outbox_kept (handlePostRequest req)) /\
  (forall req, steps outbox_kept (handleGetRequest req)) /\
  steps outbox_kept syncPendingRequests /\
  steps outbox_kept syncMoodData /\
  (forall w, outbox_wf w -> List.NoDup (map id (pending_requests w))).
Proof.
  split; [intros t net; split; constructor|].
  split; [exact kept_storeForBackgroundSync|].
  split; [intros req; unfold handlePostRequest; steps_walk|].
  split; [intros req; apply kept_of_db, db_handleGetRequest|].
  split; [unfold syncPendingRequests; steps_walk|].
  split; [unfold syncMoodData; steps_walk|].
  intros w [Hs _]. induction Hs as [|a l Hs IH Ha]; constructor; [|exact IH].
  intros Hin. rewrite List.Forall_forall in Ha. specialize (Ha a Hin). lia.
Qed.

(** ** Outbox replay, queueing and activation *)

Lemma survivors_all_ok (l : list pending_request) (outs : list (option response)) :
  Forall (fun o => exists r, o = Some r /\ ok r = true) outs ->
  length outs = length l -> replay_survivors l outs = [].
Proof.
  revert outs. induction l as [|e l IH]; intros outs Hall Hlen; [reflexivity|].
  destruct outs as [|o outs]; [discriminate|].
  inversion Hall as [|? ? (r & -> & Hok) Hall']; subst.
  cbn. rewrite Hok. apply IH; [exact Hall'|now injection Hlen].
Qed.

(** X17. Once a replay has delivered every Outbox entry with a 2xx
    response, the next replay finds the Outbox empty: it issues no fetch
    and changes nothing, so no entry is submitted twice. *)
Theorem replay_done_no_resubmission (w : world) (outs rest : list (option response)) :
  List.NoDup (map id (pending_requests w)) ->
  network w = (outs ++ rest)%list ->
  length outs = length (pending_requests w) ->
  Forall (fun o => exists r, o = Some r /\ ok r = true) outs ->
  exists w', syncPendingRequests w = (Ok tt, w') /\ pending_requests w' = [] /\
    syncPendingRequests w' = (Ok tt, w').
Proof.
  intros Hnd Hn Hlen Hall.
  destruct (replay_all_eval (pending_requests w) [] w outs rest)
    as (w' & H1 & H2 & _); try done.
  assert (He : pending_requests w' = []).
  { rewrite H2. cbn. apply survivors_all_ok; assumption. }
  exists w'. split.
  { unfold syncPendingRequests. apply try_Ok. erewrite bind_Ok by reflexivity. exact H1. }
  split; [exact He|].
  unfold syncPendingRequests. apply try_Ok. erewrite bind_Ok by reflexivity.
  rewrite He. reflexivity.
Qed.


(** X19. Activation is idempotent: a second activation finds only
    partitions with an expected name and changes nothing. *)
Theorem activate_idempotent (w : world) :
  activate (snd (activate w)) = (Ok tt, snd (activate w)).
Proof.
  assert (Ha : forall w, activate w = (Ok tt, set_caches
              (fold_left (fun c k => if expected_cache k then c else delete k c)
                         (caches_keys w) (caches w)) w)).
  { intros w0. unfold activate. erewrite bind_Ok by reflexivity. apply delete_old_eval. }
  rewrite (Ha w). cbn [snd]. rewrite Ha. f_equal.
  set (c := fold_left _ (caches_keys w) (caches w)).
  rewrite set_caches_twice. f_equal.
  apply map_eq. intros n. cbn [caches set_caches].
  rewrite fold_delete_old_lookup.
  destruct (expected_cache n) eqn:Ex; cbn.
  - rewrite andb_false_r. reflexivity.
  - rewrite andb_true_r. destruct (existsb _ _); [|reflexivity].
    unfold c. rewrite fold_delete_old_lookup, Ex, andb_true_r.
    destruct (existsb (String.eqb n) (caches_keys w)) eqn:Ek; [reflexivity|].
    destruct (caches w !! n) as [p|] eqn:E; [|reflexivity].
    rewrite (existsb_in n (caches_keys w)) in Ek by (eapply in_caches_keys; exact E).
    discriminate.
Qed.

(** X20. After a mood sync whose POST got a 2xx response the mood store is
    empty, so the next crisis check shows no notification, whatever the
    synced moods were. *)
Theorem crisis_check_silent_after_mood_sync (w : world) (r : response)
  (rest : list (option response)) :
  mood_data w <> [] -> network w = Some r :: rest -> ok r = true ->
  shown (snd (checkCrisisSupport (snd (syncMoodData w)))) = shown w.
Proof.
  intros Hm Hn Hok. destruct (mood_data w) as [|m ms] eqn:Em; [congruence|].
  assert (Hs : syncMoodData w = (Ok tt, set_moods [] (set_network rest
                 (fetch_log w ++ ["/api/sync-mood"])%list w))).
  { unfold syncMoodData. apply try_Ok.
    erewrite bind_Ok by reflexivity. rewrite Em. cbn [length Nat.ltb Nat.leb].
    erewrite bind_Ok by (apply fetch_resolved; exact Hn). rewrite Hok. reflexivity. }
  rewrite Hs. cbn [snd]. unfold checkCrisisSupport.
  rewrite (try_Ok _ _ _ (set_moods [] (set_network rest
             (fetch_log w ++ ["/api/sync-mood"])%list w)) tt); [reflexivity|].
  erewrite bind_Ok by reflexivity. erewrite bind_Ok by reflexivity. reflexivity.
Qed.

(** ** Witnesses *)

Lemma offline_navigation_gets_shell_witness :
  fst (handleGetRequest nav_request shell_world) =
  Ok (match stored shell_world STATIC_CACHE "/" with Some s => s | None => html_offline end).
Proof.
  apply (offline_navigation_gets_shell nav_request shell_world []); vm_compute; reflexivity.
Defined.

Lemma offline_api_get_gets_envelope_witness :
  fst (handleGetRequest mood_request (world_with 0 [None])) = Ok api_offline.
Proof.
  apply (offline_api_get_gets_envelope mood_request (world_with 0 [None]) []);
    vm_compute; reflexivity.
Defined.

Lemma cacheAudioFile_outcome_witness :
  exists w', cacheAudioFile BREATHING_AUDIO (world_with 0 [Some fresh_ok]) = (Ok tt, w') /\
    fetch_log w' = (fetch_log (world_with 0 [Some fresh_ok]) ++ [BREATHING_AUDIO])%list /\
    network w' = [] /\
    (forall n u, stored w' n u =
       if (addAll_accepts (Some fresh_ok)
           && negb (quota_exceeded (world_with 0 [Some fresh_ok]))
           && String.eqb n AUDIO_CACHE && String.eqb u BREATHING_AUDIO)%bool
       then Some fresh_ok else stored (world_with 0 [Some fresh_ok]) n u).
Proof. apply (cacheAudioFile_outcome _ _ (Some fresh_ok) []). reflexivity. Defined.

Lemma install_success_witness :
  exists w', install (world_with 0 (repeat (Some fresh_ok) 6)) = (Ok tt, w') /\
    skipped_waiting w' = true /\
    (forall u r, In (u, Some r) (combine STATIC_ASSETS (repeat (Some fresh_ok) 5)) ->
                 stored w' STATIC_CACHE u = Some r) /\
    stored w' AUDIO_CACHE BREATHING_AUDIO = Some fresh_ok /\
    fetch_log w' = (fetch_log (world_with 0 (repeat (Some fresh_ok) 6))
                    ++ STATIC_ASSETS ++ [BREATHING_AUDIO])%list.
Proof. apply (install_success _ _ (Some fresh_ok) []); vm_compute; reflexivity. Defined.

Lemma install_static_failure_witness :
  exists w', install (world_with 0 [Some fresh_ok; None; Some fresh_ok; Some fresh_ok;
                                    Some fresh_ok; Some fresh_ok])
             = (Err (TypeError "Request failed"), w') /\
    skipped_waiting w' = false /\
    (forall u, stored w' STATIC_CACHE u = None) /\
    stored w' AUDIO_CACHE BREATHING_AUDIO = Some fresh_ok.
Proof.
  apply (install_static_failure (world_with 0 [Some fresh_ok; None; Some fresh_ok;
            Some fresh_ok; Some fresh_ok; Some fresh_ok]) [Some fresh_ok; None; Some fresh_ok; Some fresh_ok;
                                   Some fresh_ok] (Some fresh_ok) []);
    vm_compute; reflexivity.
Defined.

Lemma relative_url_click_opens_window_witness :
  notification_click (Some "/?section=crisis")
    [mkClient "https://mindchat.example/?section=crisis" true] true
  = OpenWindow "/?section=crisis".
Proof.
  apply relative_url_click_opens_window; [reflexivity|repeat constructor].
Defined.

Lemma replay_done_no_resubmission_witness :
  exists w', syncPendingRequests (world_outbox [pending_sample 1 "/api/mood";
                                                pending_sample 2 "/api/journal"]
                                               [Some fresh_ok; Some fresh_ok])
             = (Ok tt, w') /\ pending_requests w' = [] /\
    syncPendingRequests w' = (Ok tt, w').
Proof.
  apply (replay_done_no_resubmission _ [Some fresh_ok; Some fresh_ok] []);
    [vm_compute; repeat constructor; cbn; intuition discriminate
    |reflexivity|reflexivity|repeat constructor; eexists; split; reflexivity].
Defined.


Lemma crisis_check_silent_after_mood_sync_witness :
  shown (snd (checkCrisisSupport (snd (syncMoodData low_moods_online))))
  = shown low_moods_online.
Proof.
  apply (crisis_check_silent_after_mood_sync _ fresh_ok []);
    [discriminate|reflexivity|reflexivity].
Defined.
